(** * arlo_tools: the schedule model of [bin/check_arlo_mode.py]

    A shallow embedding of the schedule builder, the schedule resolver and
    the mode comparator of [check_arlo_mode.py], together with the parts
    of the Python runtime they rest on ([str], [int], [RawConfigParser],
    [datetime], [datetime.strptime]).

    Conventions.
    - A Python [str] is a [string]; a character is its code point, and the
      model covers the code points U+0000..U+00FF.
    - [datetime.now()] is read once by [build_schedule] and once by
      [find_entry]; each function takes the instant it reads as an explicit
      argument [now].
    - A raised exception is the [Raise] case of [result]; statements run in
      the order of the source, so the first failing one decides the
      exception.
    - The SMTP session of [check_station_mode] is the list of calls made on
      the connection, in order. *)

From Stdlib Require Import ZArith Lia Bool Ascii String List.
From stdpp Require Import base option list strings gmap.

Local Open Scope string_scope.
Local Open Scope Z_scope.

(** ** Exceptions *)

Inductive exn : Type :=
  | NoSectionError (section : string)
  | NoOptionError (option_ section : string)
  | ValueError
  | OverflowError
  | RuntimeError (msg : string).

Inductive result (A : Type) : Type :=
  | Ok (a : A)
  | Raise (e : exn).

Arguments Ok {A} a.
Arguments Raise {A} e.

#[global] Instance result_ret : MRet result := fun A a => Ok a.

#[global] Instance result_bind : MBind result :=
  fun A B f m => match m with Ok a => f a | Raise e => Raise e end.

#[global] Instance result_fmap : FMap result :=
  fun A B f m => match m with Ok a => Ok (f a) | Raise e => Raise e end.

(** ** [str] *)

Module str.

Definition code (c : ascii) : Z := Z.of_N (N_of_ascii c).

Definition chr (n : Z) : ascii := ascii_of_N (Z.to_N n).

Definition between (lo hi : Z) (c : ascii) : bool :=
  (lo <=? code c) && (code c <=? hi).

(** [c.isspace()]: TAB..CR, FS..US, SPACE, NEL and NBSP. *)
Definition isspace (c : ascii) : bool :=
  between 9 13 c || between 28 32 c || (code c =? 133) || (code c =? 160).

Definition isdigit (c : ascii) : bool := between 48 57 c.

(** [c.lower()]: A..Z and the capital letters of Latin-1 move up by 32. *)
Definition lower_char (c : ascii) : ascii :=
  if between 65 90 c || between 192 214 c || between 216 222 c
  then chr (code c + 32) else c.

Fixpoint lower (s : string) : string :=
  match s with
  | EmptyString => EmptyString
  | String c s' => String (lower_char c) (lower s')
  end.

Fixpoint lstrip (s : string) : string :=
  match s with
  | EmptyString => EmptyString
  | String c s' => if isspace c then lstrip s' else s
  end.

Fixpoint rstrip (s : string) : string :=
  match s with
  | EmptyString => EmptyString
  | String c s' =>
      match rstrip s' with
      | EmptyString => if isspace c then EmptyString else String c EmptyString
      | r => String c r
      end
  end.

(** [s.strip()] *)
Definition strip (s : string) : string := lstrip (rstrip s).

(** [sep in s] for a one-character [sep] *)
Fixpoint contains (sep : ascii) (s : string) : bool :=
  match s with
  | EmptyString => false
  | String c s' => Ascii.eqb c sep || contains sep s'
  end.

(** [s.split(sep)] for a one-character [sep]: never the empty list. *)
Fixpoint split (sep : ascii) (s : string) : list string :=
  match s with
  | EmptyString => [EmptyString]
  | String c s' =>
      if Ascii.eqb c sep then EmptyString :: split sep s'
      else match split sep s' with
           | x :: xs => String c x :: xs
           | [] => [String c EmptyString]
           end
  end.

(** [sep.join(l)] *)
Fixpoint join (sep : string) (l : list string) : string :=
  match l with
  | [] => EmptyString
  | [x] => x
  | x :: xs => x +:+ sep +:+ join sep xs
  end.

(** The value of a run of decimal digits. *)
Fixpoint decimal (acc : Z) (s : string) : Z :=
  match s with
  | EmptyString => acc
  | String c s' => decimal (10 * acc + (code c - 48)) s'
  end.

(** The digit part of an integer literal: digits, single underscores
    only between two digits. *)
Fixpoint int_digits (prev_digit : bool) (s : string) : bool :=
  match s with
  | EmptyString => prev_digit
  | String c s' =>
      if isdigit c then int_digits true s'
      else if Ascii.eqb c "_" then prev_digit && int_digits false s'
      else false
  end.

Fixpoint drop_underscores (s : string) : string :=
  match s with
  | EmptyString => EmptyString
  | String c s' =>
      if Ascii.eqb c "_" then drop_underscores s' else String c (drop_underscores s')
  end.

(** [int(s)] in base 10. *)
Definition int (s : string) : result Z :=
  match strip s with
  | String "-" ds =>
      if int_digits false ds then Ok (- decimal 0 (drop_underscores ds)) else Raise ValueError
  | String "+" ds =>
      if int_digits false ds then Ok (decimal 0 (drop_underscores ds)) else Raise ValueError
  | ds =>
      if int_digits false ds then Ok (decimal 0 (drop_underscores ds)) else Raise ValueError
  end.

End str.

(** ** [datetime] *)

Module datetime.

(** A naive [datetime]: the seven fields Python compares and replaces. *)
Record t : Type := make {
  year : Z; month : Z; day : Z;
  hour : Z; minute : Z; second : Z; microsecond : Z
}.

Definition MAXYEAR : Z := 9999.

Definition _is_leap (y : Z) : bool :=
  (y mod 4 =? 0) && (negb (y mod 100 =? 0) || (y mod 400 =? 0)).

Definition _DAYS_IN_MONTH (m : Z) : Z :=
  match m with
  | 1 => 31 | 2 => 28 | 3 => 31 | 4 => 30 | 5 => 31 | 6 => 30
  | 7 => 31 | 8 => 31 | 9 => 30 | 10 => 31 | 11 => 30 | 12 => 31
  | _ => -1
  end.

Definition _DAYS_BEFORE_MONTH (m : Z) : Z :=
  match m with
  | 1 => 0 | 2 => 31 | 3 => 59 | 4 => 90 | 5 => 120 | 6 => 151
  | 7 => 181 | 8 => 212 | 9 => 243 | 10 => 273 | 11 => 304 | 12 => 334
  | _ => -1
  end.

Definition _days_in_month (y m : Z) : Z :=
  if (m =? 2) && _is_leap y then 29 else _DAYS_IN_MONTH m.

Definition _days_before_year (year : Z) : Z :=
  let y := year - 1 in y * 365 + y / 4 - y / 100 + y / 400.

Definition _days_before_month (y m : Z) : Z :=
  _DAYS_BEFORE_MONTH m + (if (2 <? m) && _is_leap y then 1 else 0).

Definition _ymd2ord (y m d : Z) : Z :=
  _days_before_year y + _days_before_month y m + d.

(** [d.toordinal()]: day 1 is 0001-01-01. *)
Definition toordinal (d : t) : Z := _ymd2ord (year d) (month d) (day d).

(** What the constructor checks. *)
Definition valid (d : t) : Prop :=
  1 <= year d <= MAXYEAR /\ 1 <= month d <= 12 /\
  1 <= day d <= _days_in_month (year d) (month d) /\
  0 <= hour d < 24 /\ 0 <= minute d < 60 /\ 0 <= second d < 60 /\
  0 <= microsecond d < 1000000.

(** Comparison is the comparison of the field tuples. *)
Definition lex (c k : comparison) : comparison :=
  match c with Eq => k | _ => c end.

Definition _cmp (a b : t) : comparison :=
  lex (year a ?= year b) (lex (month a ?= month b) (lex (day a ?= day b)
  (lex (hour a ?= hour b) (lex (minute a ?= minute b)
  (lex (second a ?= second b) (microsecond a ?= microsecond b)))))).

Definition eq (a b : t) : bool :=
  match _cmp a b with Eq => true | _ => false end.
Definition lt (a b : t) : bool :=
  match _cmp a b with Lt => true | _ => false end.
Definition le (a b : t) : bool :=
  match _cmp a b with Gt => false | _ => true end.

(** [d + timedelta(days=1)]. Python adds 1 to the ordinal of the date and
    converts back; the model steps the calendar (lemma
    [toordinal_add_day] relates the two). Past [MAXYEAR] the addition
    raises [OverflowError]. *)
Definition add_day (d : t) : result t :=
  if day d <? _days_in_month (year d) (month d) then
    Ok (make (year d) (month d) (day d + 1) (hour d) (minute d) (second d) (microsecond d))
  else if month d <? 12 then
    Ok (make (year d) (month d + 1) 1 (hour d) (minute d) (second d) (microsecond d))
  else if year d <? MAXYEAR then
    Ok (make (year d + 1) 1 1 (hour d) (minute d) (second d) (microsecond d))
  else Raise OverflowError.

End datetime.

(** ** [datetime.strptime]

    [_strptime] turns the format into a regular expression (a literal
    character stands for itself, a run of whitespace for [\s+], a
    directive for a named group), matches it ignoring case against the
    start of the text, and raises [ValueError] when nothing matches or
    when text is left over. The groups are then converted to fields over
    the defaults 1900-01-01 00:00:00. The directives modelled are the ones
    the two formats of the program use, with the expressions CPython's
    [_strptime.TimeRE] gives them; the locale is the C locale, whose
    meridiem markers are [am] and [pm]. *)

Module _strptime.

Inductive tok : Type :=
  | TDir (d : ascii)
  | TSpace
  | TLit (c : ascii).

(** A character class, a sequence of classes (one alternative of a
    group), a group. *)
Definition cls : Type := ascii -> bool.
Definition alt : Type := list cls.

Definition ch (c : ascii) : cls := fun x => Ascii.eqb (str.lower_char x) (str.lower_char c).
Definition rng (lo hi : ascii) : cls := fun x => str.between (str.code lo) (str.code hi) x.

(** [TimeRE.__getitem__]: [None] is the [KeyError] of a directive that
    has no entry. *)
Definition directive (d : ascii) : option (list alt) :=
  if Ascii.eqb d "I" then
    Some [[ch "1"; rng "0" "2"]; [ch "0"; rng "1" "9"]; [rng "1" "9"]]
  else if Ascii.eqb d "H" then
    Some [[ch "2"; rng "0" "3"]; [rng "0" "1"; str.isdigit]; [str.isdigit]]
  else if Ascii.eqb d "M" then
    Some [[rng "0" "5"; str.isdigit]; [str.isdigit]]
  else if Ascii.eqb d "m" then
    Some [[ch "1"; rng "0" "2"]; [ch "0"; rng "1" "9"]; [rng "1" "9"]]
  else if Ascii.eqb d "p" then
    Some [[ch "a"; ch "m"]; [ch "p"; ch "m"]]
  else None.

(** [TimeRE.pattern]: [None] is a bad directive or a stray [%]. *)
Fixpoint pattern (format : string) : option (list tok) :=
  match format with
  | EmptyString => Some []
  | String c rest =>
      if Ascii.eqb c "%" then
        match rest with
        | EmptyString => None
        | String d rest' =>
            match directive d, pattern rest' with
            | Some _, Some ts => Some (TDir d :: ts)
            | _, _ => None
            end
        end
      else
        match pattern rest with
        | None => None
        | Some ts =>
            if str.isspace c then
              match ts with
              | TSpace :: _ => Some ts
              | _ => Some (TSpace :: ts)
              end
            else Some (TLit c :: ts)
        end
  end.

(** One alternative against the start of the text: the text matched and
    the text left. *)
Fixpoint match_alt (a : alt) (s : string) : option (string * string) :=
  match a with
  | [] => Some (EmptyString, s)
  | p :: a' =>
      match s with
      | EmptyString => None
      | String x s' =>
          if p x then
            match match_alt a' s' with
            | Some (txt, rest) => Some (String x txt, rest)
            | None => None
            end
          else None
      end
  end.

(** Ordered choice with backtracking: the first alternative after which
    the rest of the expression [k] matches. *)
Fixpoint try_alts {R : Type} (k : string -> string -> option R)
    (alts : list alt) (s : string) : option R :=
  match alts with
  | [] => None
  | a :: alts' =>
      match match_alt a s with
      | Some (txt, rest) =>
          match k txt rest with
          | Some r => Some r
          | None => try_alts k alts' s
          end
      | None => try_alts k alts' s
      end
  end.

(** [format_regex.match(data_string)]: the groups found, in the order of
    the format, and the text after the match. [\s+] takes the whole run of
    whitespace: no group starts with whitespace, so giving some of it back
    never makes the rest match. *)
Fixpoint re_match (ts : list tok) (s : string) : option (list (ascii * string) * string) :=
  match ts with
  | [] => Some ([], s)
  | TLit c :: ts' =>
      match s with
      | String x s' => if ch c x then re_match ts' s' else None
      | EmptyString => None
      end
  | TSpace :: ts' =>
      match s with
      | String x s' => if str.isspace x then re_match ts' (str.lstrip s') else None
      | EmptyString => None
      end
  | TDir d :: ts' =>
      match directive d with
      | None => None
      | Some alts =>
          try_alts (fun txt rest =>
                      match re_match ts' rest with
                      | Some (found, rest') => Some ((d, txt) :: found, rest')
                      | None => None
                      end) alts s
      end
  end.

(** [found_dict.get(key, '')] *)
Fixpoint get (found : list (ascii * string)) (key : ascii) : string :=
  match found with
  | [] => EmptyString
  | (k, v) :: found' => if Ascii.eqb k key then v else get found' key
  end.

(** The hour of a [%I] group under the meridiem marker found. *)
Definition hour_12 (hour : Z) (ampm : string) : Z :=
  if String.eqb ampm "" || String.eqb ampm "am" then
    if hour =? 12 then 0 else hour
  else if String.eqb ampm "pm" then
    if hour =? 12 then hour else hour + 12
  else hour.

(** The loop over [found_dict.keys()], on the fields month, hour and
    minute. *)
Fixpoint convert (found_dict keys : list (ascii * string)) (mhm : Z * Z * Z) : Z * Z * Z :=
  match keys with
  | [] => mhm
  | (k, v) :: keys' =>
      let '(month, hour, minute) := mhm in
      convert found_dict keys'
        (if Ascii.eqb k "m" then (str.decimal 0 v, hour, minute)
         else if Ascii.eqb k "H" then (month, str.decimal 0 v, minute)
         else if Ascii.eqb k "I" then
           (month, hour_12 (str.decimal 0 v) (str.lower (get found_dict "p")), minute)
         else if Ascii.eqb k "M" then (month, hour, str.decimal 0 v)
         else mhm)
  end.

End _strptime.

(** [datetime.strptime(data_string, format)] *)
Definition strptime (data_string format : string) : result datetime.t :=
  match _strptime.pattern format with
  | None => Raise ValueError
  | Some ts =>
      match _strptime.re_match ts data_string with
      | None => Raise ValueError
      | Some (found_dict, EmptyString) =>
          let '(month, hour, minute) := _strptime.convert found_dict found_dict (1, 0, 0) in
          Ok (datetime.make 1900 month 1 hour minute 0 0)
      | Some (_, String _ _) => Raise ValueError
      end
  end.

(** ** [RawConfigParser] *)

Module RawConfigParser.

(** The parsed file: section name to option name to value (the options
    of a section with the defaults already merged in). *)
Abbreviation t := (gmap string (gmap string string)).

Definition get (config : t) (section option_ : string) : result string :=
  match config !! section with
  | None => Raise (NoSectionError section)
  | Some opts =>
      match opts !! option_ with
      | None => Raise (NoOptionError option_ section)
      | Some v => Ok v
      end
  end.

Definition getint (config : t) (section option_ : string) : result Z :=
  get config section option_ ≫= str.int.

End RawConfigParser.

(** ** [check_arlo_mode] *)

Definition __fmt_12 : string := "%I:%M %p".
Definition __fmt_24 : string := "%H:%m".

Record ScheduleEntry : Type := mkScheduleEntry {
  mode : string;
  start : datetime.t;
  end_ : datetime.t
}.

(** Lines 58-61 of [main]: the list of recipients. *)
Definition main_recipients (recipients : string) : list string :=
  if str.contains "," recipients
  then map str.strip (str.split "," recipients)
  else [recipients].

(** Lines 79-82 of [build_schedule]: the list of entry names. *)
Definition build_schedule_entries (entries : string) : list string :=
  if str.contains "," entries
  then map str.strip (str.split "," entries)
  else [entries].

(** Lines 84-87 of [build_schedule]. *)
Definition build_schedule_selected_fmt (clock_type : Z) : string :=
  if clock_type =? 24 then __fmt_24 else __fmt_12.

(** [t.replace(year=now.year, month=now.month, day=now.day, second=0,
    microsecond=0)] *)
Definition replace_date (t now : datetime.t) : datetime.t :=
  datetime.make (datetime.year now) (datetime.month now) (datetime.day now)
    (datetime.hour t) (datetime.minute t) 0 0.

(** [now.replace(hour=0, minute=0, second=0, microsecond=0)] *)
Definition start_of_day (now : datetime.t) : datetime.t :=
  datetime.make (datetime.year now) (datetime.month now) (datetime.day now) 0 0 0 0.

(** Lines 104-106: the end of day rule. *)
Definition build_schedule_rollover (end0 start_of_day : datetime.t) : result datetime.t :=
  if datetime.eq end0 start_of_day then datetime.add_day end0 else Ok end0.

Definition schedule_basename : string := "schedule".

(** Line 95: [schedule_basename + '_' + entry]. *)
Definition section_name (entry : string) : string :=
  schedule_basename +:+ "_" +:+ entry.

(** The body of the loop of [build_schedule], lines 95-112. *)
Definition build_schedule_body (config : RawConfigParser.t) (selected_fmt : string)
    (now : datetime.t) (entry : string) : result ScheduleEntry :=
  let section_name := section_name entry in
  mode ← RawConfigParser.get config section_name "mode";
  start_text ← RawConfigParser.get config section_name "start";
  start ← strptime start_text selected_fmt;
  end_text ← RawConfigParser.get config section_name "end";
  end0 ← strptime end_text selected_fmt;
  let start := replace_date start now in
  let end0 := replace_date end0 now in
  end1 ← build_schedule_rollover end0 (start_of_day now);
  Ok (mkScheduleEntry mode start end1).

(** The loop of [build_schedule], with the list [schedule] it appends to. *)
Fixpoint build_schedule_loop (config : RawConfigParser.t) (selected_fmt : string)
    (now : datetime.t) (entries : list string) (schedule : list ScheduleEntry)
    : result (list ScheduleEntry) :=
  match entries with
  | [] => Ok schedule
  | entry :: entries' =>
      schedule_entry ← build_schedule_body config selected_fmt now entry;
      build_schedule_loop config selected_fmt now entries' (schedule ++ [schedule_entry])
  end.

Definition build_schedule (config : RawConfigParser.t) (now : datetime.t)
    : result (list ScheduleEntry) :=
  entries ← RawConfigParser.get config schedule_basename "entries";
  let entries := str.strip entries in
  clock_type ← RawConfigParser.getint config schedule_basename "clock";
  build_schedule_loop config (build_schedule_selected_fmt clock_type) now
    (build_schedule_entries entries) [].

(** [entry.start <= now < entry.end] *)
Definition contains (entry : ScheduleEntry) (now : datetime.t) : bool :=
  datetime.le (start entry) now && datetime.lt now (end_ entry).

(** The loop of [find_entry], with the variable [found_entry]. *)
Fixpoint find_entry_loop (schedule : list ScheduleEntry) (now : datetime.t)
    (found_entry : option ScheduleEntry) : option ScheduleEntry :=
  match schedule with
  | [] => found_entry
  | entry :: schedule' =>
      find_entry_loop schedule' now
        (if contains entry now then Some entry else found_entry)
  end.

Definition find_entry (schedule : list ScheduleEntry) (now : datetime.t)
    : result ScheduleEntry :=
  match find_entry_loop schedule now None with
  | None => Raise (RuntimeError "Entry not found.")
  | Some found_entry => Ok found_entry
  end.

(** The calls [check_station_mode] makes on the SMTP session: entering the
    manager, [sendmail], leaving the manager. *)
Inductive smtp_call : Type :=
  | Enter
  | Sendmail (from_addr : string) (to_addrs : list string)
      (content subject to_header : string)
  | Exit.

Definition check_station_mode (found_entry : ScheduleEntry) (station_mode originator : string)
    (notification_recipients : list string) : list smtp_call :=
  if String.eqb (str.lower (mode found_entry)) (str.lower station_mode) then []
  else
    let content := "Arlo in " +:+ station_mode +:+ " should be " +:+ mode found_entry in
    [Enter;
     Sendmail originator notification_recipients content content
       (str.join ", " notification_recipients);
     Exit].

(** ** Notions the statements use *)

(** The entries whose interval contains [now], in schedule order. *)
Definition active_entries (schedule : list ScheduleEntry) (now : datetime.t)
    : list ScheduleEntry :=
  List.filter (fun e => contains e now) schedule.

(** The directives of a format, in order. *)
Fixpoint directives (ts : list _strptime.tok) : list ascii :=
  match ts with
  | [] => []
  | _strptime.TDir d :: ts' => d :: directives ts'
  | _ :: ts' => directives ts'
  end.

(** The number of occurrences of [sep] in [s]. *)
Fixpoint count (sep : ascii) (s : string) : nat :=
  match s with
  | EmptyString => O
  | String c s' => if Ascii.eqb c sep then S (count sep s') else count sep s'
  end.

Fixpoint all_space (s : string) : bool :=
  match s with
  | EmptyString => true
  | String c s' => str.isspace c && all_space s'
  end.

Definition starts_with_space (s : string) : bool :=
  match s with
  | EmptyString => false
  | String c _ => str.isspace c
  end.

Fixpoint ends_with_space (s : string) : bool :=
  match s with
  | EmptyString => false
  | String c EmptyString => str.isspace c
  | String _ s' => ends_with_space s'
  end.

(** [t] is [s] without the whitespace around it. *)
Definition trimmed_of (s t : string) : Prop :=
  exists l r, s = l +:+ t +:+ r
    /\ all_space l = true /\ all_space r = true
    /\ starts_with_space t = false /\ ends_with_space t = false.

(** The end an entry has before the end of day rule: lines 99 and 102. *)
Definition computed_end (config : RawConfigParser.t) (selected_fmt : string)
    (now : datetime.t) (entry : string) : result datetime.t :=
  end_text ← RawConfigParser.get config (section_name entry) "end";
  end0 ← strptime end_text selected_fmt;
  Ok (replace_date end0 now).

(** [b] is [a] one day later, at the same time of day. *)
Definition one_day_later (a b : datetime.t) : Prop :=
  datetime.toordinal b = datetime.toordinal a + 1
  /\ datetime.hour b = datetime.hour a /\ datetime.minute b = datetime.minute a
  /\ datetime.second b = datetime.second a
  /\ datetime.microsecond b = datetime.microsecond a.

(** The time of day of [d] is 00:00. *)
Definition midnight (d : datetime.t) : Prop :=
  datetime.hour d = 0 /\ datetime.minute d = 0.

(** The time of day of [a], to the minute, is before that of [b]. *)
Definition earlier_in_day (a b : datetime.t) : Prop :=
  datetime.hour a < datetime.hour b
  \/ (datetime.hour a = datetime.hour b /\ datetime.minute a < datetime.minute b).

(** ** Sample configurations and instants *)

(** A configuration file with a [schedule] section and one
    [schedule_<name>] section (mode, start, end) per listed triple. *)
Definition sample_config (clock entries : string)
    (sections : list (string * (string * string * string))) : RawConfigParser.t :=
  list_to_map
    (("schedule", list_to_map [("entries", entries); ("clock", clock)])
     :: map (fun '(name, (m, s, e)) =>
               ("schedule_" +:+ name, list_to_map [("mode", m); ("start", s); ("end", e)]))
          sections).

(** An instant of 2024-02-29. *)
Definition on_the_day (h m s us : Z) : datetime.t := datetime.make 2024 2 29 h m s us.

Definition sample_now : datetime.t := on_the_day 10 30 15 123.

(** Entries A (mode x, 09:00-17:00) and B (mode y, 12:00-13:00). *)
Definition entry_A : ScheduleEntry :=
  mkScheduleEntry "x" (on_the_day 9 0 0 0) (on_the_day 17 0 0 0).
Definition entry_B : ScheduleEntry :=
  mkScheduleEntry "y" (on_the_day 12 0 0 0) (on_the_day 13 0 0 0).

(** Two entries on a 12-hour clock, the second ending at midnight. *)
Definition day_config : RawConfigParser.t :=
  sample_config "12" "away, home"
    [("away", ("armed", "09:00 AM", "05:00 PM"));
     ("home", ("disarmed", "05:00 PM", "12:00 AM"))].

Definition day_schedule : list ScheduleEntry :=
  [mkScheduleEntry "armed" (on_the_day 9 0 0 0) (on_the_day 17 0 0 0);
   mkScheduleEntry "disarmed" (on_the_day 17 0 0 0) (datetime.make 2024 3 1 0 0 0 0)].

(** One entry that runs overnight, from 5 PM to 9 AM. *)
Definition overnight_config : RawConfigParser.t :=
  sample_config "12" "night" [("night", ("armed", "05:00 PM", "09:00 AM"))].

(** The configuration [day_config] with a clock value that is neither 12
    nor 24. *)
Definition odd_clock_config : RawConfigParser.t :=
  sample_config "13" "away, home"
    [("away", ("armed", "09:00 AM", "05:00 PM"));
     ("home", ("disarmed", "05:00 PM", "12:00 AM"))].

(** A 24-hour clock with minutes in the times. *)
Definition clock_24_config (start_text end_text : string) : RawConfigParser.t :=
  sample_config "24" "away" [("away", ("armed", start_text, end_text))].

(** Entries for 08:00-12:00 and 13:00-18:00: nothing covers 12:30. *)
Definition gap_schedule : list ScheduleEntry :=
  [mkScheduleEntry "armed" (on_the_day 8 0 0 0) (on_the_day 12 0 0 0);
   mkScheduleEntry "disarmed" (on_the_day 13 0 0 0) (on_the_day 18 0 0 0)].

(** One entry [away], armed from 9 AM to 5 PM on a 12-hour clock. *)
Definition away_config : RawConfigParser.t :=
  sample_config "12" "away" [("away", ("armed", "09:00 AM", "05:00 PM"))].

(** The text [txt] is what one alternative of the group of directive [d]
    took off the start of some text. *)
Definition group_matched (d : ascii) (txt : string) : Prop :=
  exists alts a s rest,
    _strptime.directive d = Some alts /\ a ∈ alts
    /\ _strptime.match_alt a s = Some (txt, rest).

(** A time of day within the bounds the [datetime] constructor checks. *)
Definition valid_time (d : datetime.t) : Prop :=
  0 <= datetime.hour d <= 23 /\ 0 <= datetime.minute d <= 59.

(** [a] and [b] are instants of the same calendar day. *)
Definition same_day (a b : datetime.t) : Prop :=
  datetime.year a = datetime.year b /\ datetime.month a = datetime.month b
  /\ datetime.day a = datetime.day b.

(** The second of three names has no section. *)
Definition missing_section_config : RawConfigParser.t :=
  sample_config "12" "away, gone, home"
    [("away", ("armed", "09:00 AM", "05:00 PM"));
     ("home", ("disarmed", "05:00 PM", "12:00 AM"))].

(** The two decimal digits of a number below 100. *)
Definition two_digits (n : Z) : string :=
  String (str.chr (48 + n / 10)) (String (str.chr (48 + n mod 10)) "").

(** The text of a time on the 12-hour clock: [HH:MM AM] or [HH:MM PM]. *)
Definition text_12 (h m : Z) (pm : bool) : string :=
  two_digits h +:+ ":" +:+ two_digits m +:+ " " +:+ (if pm then "PM" else "AM").

(** A name as it can stand in a list: no comma in it and no whitespace
    around it. *)
Definition plain_name (n : string) : Prop :=
  str.contains "," n = false
  /\ starts_with_space n = false /\ ends_with_space n = false.

(** ** [SMTPManager] and the SMTP server

    The SMTP library is outside the program. A connection object is known
    by a number, the length of the log when it was made; the log holds, in
    order, every call made on a connection, with whether it returned or
    raised. Whether a call returns is up to the server: it is the
    parameter [accepts] of everything below, which sees the log so far. *)

Module SMTPManager.

Inductive call : Type :=
  | SMTP (server : string) (port : Z)
  | ehlo
  | starttls
  | login (user password : string)
  | sendmail (from_addr : string) (to_addrs : list string) (msg : string * string * string * string)
  | quit.

Record event : Type := mkEvent {
  conn : nat;
  what : call;
  returned : bool
}.

(** The object: its four settings and [_connection] ([None] when there is
    none). *)
Record t : Type := make {
  _server : string;
  _port : Z;
  _username : string;
  _password : string;
  _connection : option nat
}.

Definition __init__ (username password server : string) (port : Z) : t :=
  make server port username password None.

End SMTPManager.

(** What a program that talks to the server can raise: an exception of the
    program itself, the [AttributeError] of a call on [None], or an
    exception of the SMTP library. *)
Inductive error : Type :=
  | Exn (e : exn)
  | AttributeError (attr : string)
  | SMTPException.

Inductive outcome (A : Type) : Type :=
  | Returned (a : A)
  | Raised (e : error).

Arguments Returned {A} a.
Arguments Raised {A} e.

(** A program that uses one manager and the server: from the manager and
    the log to an outcome, the manager and the log after. *)
Definition M (A : Type) : Type :=
  SMTPManager.t -> list SMTPManager.event ->
  outcome A * SMTPManager.t * list SMTPManager.event.

#[global] Instance M_ret : MRet M := fun A a self log => (Returned a, self, log).

#[global] Instance M_bind : MBind M :=
  fun A B f m self log =>
    match m self log with
    | (Returned a, self', log') => f a self' log'
    | (Raised e, self', log') => (Raised e, self', log')
    end.

Definition raise {A : Type} (e : error) : M A := fun self log => (Raised e, self, log).

Definition lift {A : Type} (r : result A) : M A :=
  match r with
  | Ok a => mret a
  | Raise e => raise (Exn e)
  end.

Definition this : M SMTPManager.t := fun self log => (Returned self, self, log).

(** [self._connection = c] *)
Definition set_connection (c : option nat) : M unit :=
  fun self log =>
    (Returned tt,
     SMTPManager.make (SMTPManager._server self) (SMTPManager._port self)
       (SMTPManager._username self) (SMTPManager._password self) c,
     log).

Section server.

Variable accepts : list SMTPManager.event -> nat -> SMTPManager.call -> bool.

(** One call on the connection [c]. *)
Definition on_connection (c : nat) (k : SMTPManager.call) : M unit :=
  fun self log =>
    let ok := accepts log c k in
    (if ok then Returned tt else Raised SMTPException,
     self, (log ++ [SMTPManager.mkEvent c k ok])%list).

(** [SMTP(server, port)]: a new connection object, when the server takes
    the connection. *)
Definition new_SMTP (server : string) (port : Z) : M nat :=
  fun self log =>
    let c := length log in
    let ok := accepts log c (SMTPManager.SMTP server port) in
    (if ok then Returned c else Raised SMTPException,
     self, (log ++ [SMTPManager.mkEvent c (SMTPManager.SMTP server port) ok])%list).

(** [smtp.k(...)] for a value [smtp] that is a connection or [None]. *)
Definition call_on (smtp : option nat) (attr : string) (k : SMTPManager.call) : M unit :=
  match smtp with
  | None => raise (AttributeError attr)
  | Some c => on_connection c k
  end.

(** [self._connection.k(...)] *)
Definition on_self_connection (attr : string) (k : SMTPManager.call) : M unit :=
  self ← this; call_on (SMTPManager._connection self) attr k.

(** [SMTPManager.__enter__], lines 193-204. *)
Definition __enter__ : M (option nat) :=
  self ← this;
  c ← new_SMTP (SMTPManager._server self) (SMTPManager._port self);
  set_connection (Some c);;
  on_self_connection "ehlo" SMTPManager.ehlo;;
  on_self_connection "starttls" SMTPManager.starttls;;
  on_self_connection "ehlo" SMTPManager.ehlo;;
  self ← this;
  on_self_connection "login"
    (SMTPManager.login (SMTPManager._username self) (SMTPManager._password self));;
  self ← this;
  mret (SMTPManager._connection self).

(** [SMTPManager.__exit__], lines 206-210. *)
Definition __exit__ : M unit :=
  on_self_connection "quit" SMTPManager.quit;;
  set_connection None.

(** [SMTPManager.send], lines 212-217, on a message given by its [From]
    and [To] headers and its text. *)
Definition send (msg_from msg_to : string) (as_string : string * string * string * string)
    : M unit :=
  self ← this;
  match SMTPManager._connection self with
  | None => raise (Exn (RuntimeError "Not connected to smtp server"))
  | Some _ =>
      on_self_connection "sendmail" (SMTPManager.sendmail msg_from [msg_to] as_string)
  end.

(** [with smtp_manager as smtp: body]: [__exit__] runs when the body ends,
    by return or by exception, and not when [__enter__] raised; what
    [__exit__] raises replaces what the body raised. *)
Definition with_manager {A : Type} (body : option nat -> M A) : M A :=
  fun self log =>
    match __enter__ self log with
    | (Raised e, self1, log1) => (Raised e, self1, log1)
    | (Returned smtp, self1, log1) =>
        match body smtp self1 log1 with
        | (r, self2, log2) =>
            match __exit__ self2 log2 with
            | (Raised e, self3, log3) => (Raised e, self3, log3)
            | (Returned _, self3, log3) => (r, self3, log3)
            end
        end
    end.

(** [check_station_mode] with the manager and the server, lines 134-153.
    The text [msg.as_string()] is given by what it is made of: the
    content and the three headers. *)
Definition check_station_mode_on (found_entry : ScheduleEntry)
    (station_mode originator : string) (notification_recipients : list string) : M unit :=
  if String.eqb (str.lower (mode found_entry)) (str.lower station_mode) then mret tt
  else
    let content := "Arlo in " +:+ station_mode +:+ " should be " +:+ mode found_entry in
    with_manager (fun smtp =>
      let msg_from := originator in
      let msg_to := str.join ", " notification_recipients in
      let msg_subject := content in
      call_on smtp "sendmail"
        (SMTPManager.sendmail msg_from notification_recipients
           (content, msg_from, msg_to, msg_subject))).

(** The loop of [main], lines 64-69, over the base stations: the mode each
    reports and the instant [find_entry] reads at its turn. *)
Fixpoint main_loop (schedule : list ScheduleEntry) (recipients : list string)
    (base_stations : list (string * datetime.t)) : M unit :=
  match base_stations with
  | [] => mret tt
  | (station_mode, now) :: base_stations' =>
      found_entry ← lift (find_entry schedule now);
      smtp_manager ← this;
      check_station_mode_on found_entry station_mode
        (SMTPManager._username smtp_manager) recipients;;
      main_loop schedule recipients base_stations'
  end.

End server.

(** [make_smtp_manager], lines 156-163. *)
Definition make_smtp_manager (config : RawConfigParser.t) : result SMTPManager.t :=
  username ← RawConfigParser.get config "email" "smtp_username";
  password ← RawConfigParser.get config "email" "smtp_password";
  server ← RawConfigParser.get config "email" "smtp_server";
  port ← RawConfigParser.getint config "email" "smtp_port";
  Ok (SMTPManager.__init__ username password server port).

(** What [main] reads and builds before its loop, lines 46-61: the
    credentials of the camera service (handed to [PyArlo], which is
    outside), the schedule, the manager and the recipients. *)
Definition main_setup (config : RawConfigParser.t) (now : datetime.t)
    : result (list ScheduleEntry * SMTPManager.t * list string) :=
  username ← RawConfigParser.get config "arlo" "username";
  password ← RawConfigParser.get config "arlo" "password";
  schedule ← build_schedule config now;
  smtp_manager ← make_smtp_manager config;
  recipients ← RawConfigParser.get config "email" "recipients";
  Ok (schedule, smtp_manager, main_recipients recipients).

(** [main] after its arguments are parsed, lines 46-69, given the base
    stations [PyArlo] reports: the outcome and the log of the server. *)
Definition main (accepts : list SMTPManager.event -> nat -> SMTPManager.call -> bool)
    (config : RawConfigParser.t) (now : datetime.t)
    (base_stations : list (string * datetime.t)) (log : list SMTPManager.event)
    : outcome unit * list SMTPManager.event :=
  match main_setup config now with
  | Raise e => (Raised (Exn e), log)
  | Ok (schedule, smtp_manager, recipients) =>
      let '(r, _, log') := main_loop accepts schedule recipients base_stations smtp_manager log in
      (r, log')
  end.

(** What may follow a log: a [login] on a connection on which [starttls]
    has returned, a [sendmail] on a connection on which a [login] has
    returned, and any other call. *)
Definition allowed (log : list SMTPManager.event) (e : SMTPManager.event) : Prop :=
  match SMTPManager.what e with
  | SMTPManager.login _ _ =>
      SMTPManager.mkEvent (SMTPManager.conn e) SMTPManager.starttls true ∈ log
  | SMTPManager.sendmail _ _ _ =>
      exists user password,
        SMTPManager.mkEvent (SMTPManager.conn e) (SMTPManager.login user password) true ∈ log
  | _ => True
  end.

(** The calls a manager with the settings of [settings] makes for a
    message to [recipients]: to its server and port, with its user name
    and password, from its user name to the recipients. *)
Definition conforms (settings : SMTPManager.t) (recipients : list string)
    (e : SMTPManager.event) : Prop :=
  match SMTPManager.what e with
  | SMTPManager.SMTP server port =>
      server = SMTPManager._server settings /\ port = SMTPManager._port settings
  | SMTPManager.login user password =>
      user = SMTPManager._username settings /\ password = SMTPManager._password settings
  | SMTPManager.sendmail from_addr to_addrs _ =>
      from_addr = SMTPManager._username settings /\ to_addrs = recipients
  | _ => True
  end.

(** Every event of the log satisfies [step] after the events before it. *)
Definition kept (step : list SMTPManager.event -> SMTPManager.event -> Prop)
    (log : list SMTPManager.event) : Prop :=
  forall before e after, log = (before ++ e :: after)%list -> step before e.

(** What [main] keeps: the order of a session, with the settings and the
    recipients of the configuration. *)
Definition well_behaved (settings : SMTPManager.t) (recipients : list string)
    (log : list SMTPManager.event) : Prop :=
  kept (fun before e => allowed before e /\ conforms settings recipients e) log.

(** The two managers differ at most in [_connection]. *)
Definition same_settings (a b : SMTPManager.t) : Prop :=
  SMTPManager._server a = SMTPManager._server b
  /\ SMTPManager._port a = SMTPManager._port b
  /\ SMTPManager._username a = SMTPManager._username b
  /\ SMTPManager._password a = SMTPManager._password b.

(** The server takes every call. *)
Definition always (log : list SMTPManager.event) (c : nat) (k : SMTPManager.call) : bool :=
  true.

(** The server takes every call but [login]. *)
Definition no_login (log : list SMTPManager.event) (c : nat) (k : SMTPManager.call) : bool :=
  match k with
  | SMTPManager.login _ _ => false
  | _ => true
  end.

(** A configuration with the camera and mail settings beside the schedule
    of [day_config]. *)
Definition full_config : RawConfigParser.t :=
  list_to_map
    [("arlo", list_to_map [("username", "cam"); ("password", "secret")]);
     ("email", list_to_map [("smtp_username", "me@x"); ("smtp_password", "pw");
                            ("smtp_server", "smtp.x"); ("smtp_port", "587");
                            ("recipients", "you@x, them@x")]);
     ("schedule", list_to_map [("entries", "away, home"); ("clock", "12")]);
     ("schedule_away", list_to_map [("mode", "armed"); ("start", "09:00 AM");
                                    ("end", "05:00 PM")]);
     ("schedule_home", list_to_map [("mode", "disarmed"); ("start", "05:00 PM");
                                    ("end", "12:00 AM")])].

(** The call of [e] is made with what the configuration says: the server
    and port, the user name and password, the user name as sender and the
    recipients of the [email] section. *)
Definition configured (config : RawConfigParser.t) (e : SMTPManager.event) : Prop :=
  match SMTPManager.what e with
  | SMTPManager.SMTP server port =>
      RawConfigParser.get config "email" "smtp_server" = Ok server
      /\ RawConfigParser.getint config "email" "smtp_port" = Ok port
  | SMTPManager.login user password =>
      RawConfigParser.get config "email" "smtp_username" = Ok user
      /\ RawConfigParser.get config "email" "smtp_password" = Ok password
  | SMTPManager.sendmail from_addr to_addrs _ =>
      RawConfigParser.get config "email" "smtp_username" = Ok from_addr
      /\ exists recipients,
           RawConfigParser.get config "email" "recipients" = Ok recipients
           /\ to_addrs = main_recipients recipients
  | _ => True
  end.

(** The manager without its connection. *)
Definition disconnected (self : SMTPManager.t) : SMTPManager.t :=
  SMTPManager.make (SMTPManager._server self) (SMTPManager._port self)
    (SMTPManager._username self) (SMTPManager._password self) None.

(** Three base stations checked during the day of [sample_now]: the
    second and the third are not in the mode of the schedule. *)
Definition sample_stations : list (string * datetime.t) :=
  [("armed", on_the_day 10 0 0 0); ("Armed", on_the_day 18 0 0 0);
   ("disarmed", on_the_day 11 0 0 0)].

(** The log of a session that ends at a refused [login]. *)
Definition refused_login_log : list SMTPManager.event :=
  [SMTPManager.mkEvent 0 (SMTPManager.SMTP "smtp.x" 587) true;
   SMTPManager.mkEvent 0 SMTPManager.ehlo true;
   SMTPManager.mkEvent 0 SMTPManager.starttls true;
   SMTPManager.mkEvent 0 SMTPManager.ehlo true;
   SMTPManager.mkEvent 0 (SMTPManager.login "me@x" "pw") false].

(** The calls of one session that sends one message, in order. *)
Definition session_calls (self : SMTPManager.t) (from_addr : string)
    (to_addrs : list string) (msg : string * string * string * string)
    : list SMTPManager.call :=
  [SMTPManager.SMTP (SMTPManager._server self) (SMTPManager._port self);
   SMTPManager.ehlo; SMTPManager.starttls; SMTPManager.ehlo;
   SMTPManager.login (SMTPManager._username self) (SMTPManager._password self);
   SMTPManager.sendmail from_addr to_addrs msg;
   SMTPManager.quit].

(** The log [log'] is [log] followed by calls none of which is [quit]. *)
Definition grown_without_quit (log log' : list SMTPManager.event) : Prop :=
  exists added, log' = (log ++ added)%list
    /\ Forall (fun ev => SMTPManager.what ev <> SMTPManager.quit) added.

(** A new manager. *)
Definition sample_manager : SMTPManager.t :=
  SMTPManager.__init__ "me@x" "pw" "smtp.x" 587.

(** ** [setup.py] *)

Module setup_py.

(** [s.startswith(prefix)] *)
Fixpoint startswith (prefix s : string) : bool :=
  match prefix with
  | EmptyString => true
  | String p prefix' =>
      match s with
      | EmptyString => false
      | String c s' => Ascii.eqb p c && startswith prefix' s'
      end
  end.

(** [s.find(sub)]: the index of the first occurrence, or -1. *)
Fixpoint find (sub s : string) : Z :=
  if startswith sub s then 0
  else match s with
       | EmptyString => -1
       | String _ s' => let i := find sub s' in if i <? 0 then -1 else i + 1
       end.

(** [s[k:]] for [k >= 0] *)
Fixpoint slice_from (k : nat) (s : string) : string :=
  match k, s with
  | O, _ => s
  | S _, EmptyString => EmptyString
  | S k', String _ s' => slice_from k' s'
  end.

(** [s.replace(old, new, 1)] for a one-character [old] *)
Fixpoint replace_first (old : ascii) (new s : string) : string :=
  match s with
  | EmptyString => EmptyString
  | String c s' =>
      if Ascii.eqb c old then new +:+ s' else String c (replace_first old new s')
  end.

(** Line 16: [req[req.find("egg=") + 4:].replace("-", "==", 1)] *)
Definition egg_requirement (req : string) : string :=
  replace_first "-" "==" (slice_from (Z.to_nat (find "egg=" req + 4)) req).

(** The loop of lines 11-18, with the two lists it appends to. *)
Fixpoint requirements_loop (temp_install_reqs install_reqs dependency_links : list string)
    : list string * list string :=
  match temp_install_reqs with
  | [] => (install_reqs, dependency_links)
  | req :: reqs =>
      if startswith "https://" req then
        requirements_loop reqs (install_reqs ++ [egg_requirement req])
          (dependency_links ++ [req])
      else requirements_loop reqs (install_reqs ++ [req]) dependency_links
  end.

(** Lines 5-18, from the lines of [requirements.txt]: [install_reqs] and
    [dependency_links]. *)
Definition requirements (lines : list string) : list string * list string :=
  requirements_loop (map str.strip lines) [] [].

End setup_py.

(** [sub] occurs in [s]. *)
Definition occurs (sub s : string) : bool := 0 <=? setup_py.find sub s.

(** ** Properties of [datetime] *)

Section datetime_facts.

Import datetime.

Lemma lex_Eq c k : lex c k = Eq <-> c = Eq /\ k = Eq.
Proof. destruct c; simpl; intuition congruence. Qed.

Lemma _cmp_Eq a b : _cmp a b = Eq <-> a = b.
Proof.
  destruct a, b; unfold _cmp; simpl.
  rewrite !lex_Eq, !Z.compare_eq_iff. split.
  - intros (-> & -> & -> & -> & -> & -> & ->). reflexivity.
  - intros [= -> -> -> -> -> -> ->]. repeat split.
Qed.

Lemma _cmp_refl a : _cmp a a = Eq.
Proof. apply _cmp_Eq. reflexivity. Qed.

Lemma eq_iff a b : eq a b = true <-> a = b.
Proof.
  unfold eq. rewrite <- _cmp_Eq. destruct (_cmp a b); intuition congruence.
Qed.

Lemma lt_irrefl a : lt a a = false.
Proof. unfold lt. rewrite _cmp_refl. reflexivity. Qed.

Lemma le_refl a : le a a = true.
Proof. unfold le. rewrite _cmp_refl. reflexivity. Qed.

Lemma le_lt_eq a b : le a b = true <-> lt a b = true \/ a = b.
Proof.
  unfold le, lt. rewrite <- _cmp_Eq. destruct (_cmp a b); intuition congruence.
Qed.

(** Two instants of one day that carry no seconds compare by hour and
    minute. *)
Lemma lt_same_day y m d h1 m1 h2 m2 :
  lt (make y m d h1 m1 0 0) (make y m d h2 m2 0 0) = true
  <-> h1 < h2 \/ (h1 = h2 /\ m1 < m2).
Proof.
  unfold lt, _cmp; simpl. rewrite !Z.compare_refl; simpl.
  destruct (Z.compare_spec h1 h2); simpl; [|intuition lia|intuition (lia || congruence)].
  destruct (Z.compare_spec m1 m2); simpl; intuition (lia || congruence).
Qed.

(** The day after is later than every instant of the day. *)
Lemma lt_add_day d d' x :
  add_day d = Ok d' ->
  year x = year d -> month x = month d -> day x = day d ->
  lt x d' = true.
Proof.
  unfold add_day. intros H Hy Hm Hd.
  destruct (day d <? _) eqn:E1; [|destruct (month d <? 12) eqn:E2;
    [|destruct (year d <? MAXYEAR) eqn:E3; [|discriminate]]];
    injection H as <-; unfold lt, _cmp; simpl; rewrite ?Hy, ?Hm, ?Hd, ?Z.compare_refl; simpl.
  - replace (day d ?= day d + 1) with Lt; [reflexivity|]. symmetry. apply Z.compare_lt_iff. lia.
  - replace (month d ?= month d + 1) with Lt; [reflexivity|]. symmetry. apply Z.compare_lt_iff. lia.
  - replace (year d ?= year d + 1) with Lt; [reflexivity|]. symmetry. apply Z.compare_lt_iff. lia.
Qed.

Lemma _days_before_next_month y m :
  1 <= m < 12 -> _days_before_month y (m + 1) = _days_before_month y m + _days_in_month y m.
Proof.
  intros Hm. unfold _days_before_month, _days_in_month.
  assert (m = 1 \/ m = 2 \/ m = 3 \/ m = 4 \/ m = 5 \/ m = 6 \/ m = 7 \/ m = 8
          \/ m = 9 \/ m = 10 \/ m = 11) as Hc by lia.
  destruct (_is_leap y);
    repeat (destruct Hc as [-> | Hc]; [reflexivity|]); subst; reflexivity.
Qed.

Lemma _days_before_next_year y :
  _days_before_year (y + 1) = _days_before_year y + 365 + (if _is_leap y then 1 else 0).
Proof.
  unfold _days_before_year, _is_leap.
  replace (y + 1 - 1) with y by lia.
  destruct (y mod 4 =? 0) eqn:E4; destruct (y mod 100 =? 0) eqn:E100;
    destruct (y mod 400 =? 0) eqn:E400; simpl;
    rewrite ?Z.eqb_eq, ?Z.eqb_neq in *; Z.div_mod_to_equations; lia.
Qed.

(** [add_day] is one step of the ordinal and keeps the time of day. *)
Lemma toordinal_add_day d d' :
  1 <= month d <= 12 -> day d <= _days_in_month (year d) (month d) ->
  add_day d = Ok d' ->
  toordinal d' = toordinal d + 1
  /\ hour d' = hour d /\ minute d' = minute d
  /\ second d' = second d /\ microsecond d' = microsecond d.
Proof.
  unfold add_day, toordinal, _ymd2ord. intros Hm Hd H.
  destruct (day d <? _) eqn:E1; [|destruct (month d <? 12) eqn:E2;
    [|destruct (year d <? MAXYEAR) eqn:E3; [|discriminate]]];
    injection H as <-; simpl; (split; [|tauto]).
  - lia.
  - rewrite _days_before_next_month by lia. lia.
  - assert (month d = 12) as Hm12 by lia.
    rewrite _days_before_next_year. rewrite Hm12 in *.
    unfold _days_before_month, _days_in_month in *. simpl in *.
    destruct (_is_leap (year d)); simpl in *; lia.
Qed.

End datetime_facts.

(** ** The schedule resolver: [find_entry] *)

Section find_entry_facts.

Variable now : datetime.t.

Lemma find_entry_loop_last schedule found_entry :
  find_entry_loop schedule now found_entry =
  match last (active_entries schedule now) with
  | Some e => Some e
  | None => found_entry
  end.
Proof.
  revert found_entry. induction schedule as [|entry schedule IH]; intros found_entry.
  - reflexivity.
  - simpl. rewrite IH. unfold active_entries; simpl. destruct (contains entry now).
    + rewrite last_cons. destruct (last _); reflexivity.
    + reflexivity.
Qed.

(** [find_entry] returns the last active entry, and raises when there is
    none. *)
Lemma find_entry_last schedule :
  find_entry schedule now =
  match last (active_entries schedule now) with
  | Some e => Ok e
  | None => Raise (RuntimeError "Entry not found.")
  end.
Proof.
  unfold find_entry. rewrite find_entry_loop_last. destruct (last _); reflexivity.
Qed.

Lemma active_elem schedule e :
  e ∈ active_entries schedule now <-> e ∈ schedule /\ contains e now = true.
Proof. unfold active_entries. rewrite !list_elem_of_In. apply filter_In. Qed.

Lemma active_nil schedule :
  active_entries schedule now = [] <-> forall e, e ∈ schedule -> contains e now = false.
Proof.
  split.
  - intros H e He. destruct (contains e now) eqn:E; [|reflexivity].
    assert (e ∈ active_entries schedule now) as Hin by (apply active_elem; tauto).
    rewrite H in Hin. inversion Hin.
  - intros H. destruct (active_entries schedule now) as [|e l] eqn:E; [reflexivity|].
    assert (e ∈ active_entries schedule now) as Hin by (rewrite E; left).
    apply active_elem in Hin as [Hin Hc]. rewrite (H e Hin) in Hc. discriminate.
Qed.

Lemma find_entry_Ok schedule e :
  find_entry schedule now = Ok e -> e ∈ schedule /\ contains e now = true.
Proof.
  rewrite find_entry_last. destruct (last _) as [e'|] eqn:E; [|discriminate].
  intros [= ->]. apply active_elem. eapply last_Some_elem_of, E.
Qed.

Lemma find_entry_Raise schedule :
  find_entry schedule now = Raise (RuntimeError "Entry not found.")
  <-> forall e, e ∈ schedule -> contains e now = false.
Proof.
  rewrite find_entry_last, <- active_nil, <- last_None.
  destruct (last _); split; intros; congruence.
Qed.

Lemma find_entry_app_last before e after :
  contains e now = true ->
  Forall (fun e' => contains e' now = false) after ->
  find_entry (before ++ e :: after) now = Ok e.
Proof.
  intros He Hafter. rewrite find_entry_last. unfold active_entries.
  rewrite List.filter_app. simpl. rewrite He.
  replace (List.filter _ after) with (@nil ScheduleEntry).
  - rewrite last_app. reflexivity.
  - symmetry. apply (active_nil after). intros e' He'.
    rewrite Forall_forall in Hafter. apply Hafter, He'.
Qed.

End find_entry_facts.

(** C3. [find_entry] tests containment on the half-open interval: an entry
    it returns is an entry of the schedule with [start <= now < end]; an
    entry whose [end] equals [now] is never returned; and a one-entry
    schedule returns its entry exactly when [start <= now < end]. *)
Theorem find_entry_half_open (schedule : list ScheduleEntry) (now : datetime.t) :
  (forall e, find_entry schedule now = Ok e ->
     e ∈ schedule /\ datetime.le (start e) now = true /\ datetime.lt now (end_ e) = true)
  /\ (forall e, now = end_ e -> find_entry schedule now <> Ok e)
  /\ (forall e, find_entry [e] now = Ok e <->
        datetime.le (start e) now = true /\ datetime.lt now (end_ e) = true).
Proof.
  split; [|split].
  - intros e H. apply find_entry_Ok in H as [Hin Hc].
    unfold contains in Hc. apply andb_true_iff in Hc. tauto.
  - intros e -> H. apply find_entry_Ok in H as [_ Hc].
    unfold contains in Hc. rewrite lt_irrefl, andb_false_r in Hc. discriminate.
  - intros e. unfold find_entry; simpl. rewrite <- andb_true_iff.
    fold (contains e now). destruct (contains e now); split; congruence.
Qed.

(** C4. When several entries contain [now], [find_entry] returns the one
    declared last: an entry that contains [now] and is followed only by
    entries that do not is the result, whatever comes before it. *)
Theorem find_entry_last_wins (before after : list ScheduleEntry) (e : ScheduleEntry)
    (now : datetime.t) :
  contains e now = true ->
  Forall (fun e' => contains e' now = false) after ->
  find_entry (before ++ e :: after) now = Ok e.
Proof. apply find_entry_app_last. Qed.

(** Entries A (09:00-17:00) and B (12:00-13:00), declared in the order
    A, B, both contain 12:30; B is returned. *)
Lemma find_entry_last_wins_witness :
  contains entry_A (on_the_day 12 30 0 0) = true
  /\ contains entry_B (on_the_day 12 30 0 0) = true
  /\ find_entry [entry_A; entry_B] (on_the_day 12 30 0 0) = Ok entry_B.
Proof.
  split; [reflexivity|split; [reflexivity|]].
  apply (find_entry_last_wins [entry_A] [] entry_B (on_the_day 12 30 0 0)).
  - reflexivity.
  - constructor.
Defined.

(** C5. [find_entry] returns an entry if and only if some entry of the
    schedule contains [now]; it raises [RuntimeError('Entry not found.')]
    if and only if none does; and an entry it returns is always an entry
    of the schedule that contains [now]. *)
Theorem find_entry_no_active_entry (schedule : list ScheduleEntry) (now : datetime.t) :
  ((exists e, find_entry schedule now = Ok e) <->
   (exists e, e ∈ schedule /\ contains e now = true))
  /\ (find_entry schedule now = Raise (RuntimeError "Entry not found.") <->
      (forall e, e ∈ schedule -> contains e now = false))
  /\ (forall e, find_entry schedule now = Ok e -> e ∈ schedule /\ contains e now = true).
Proof.
  split; [|split].
  - split.
    + intros [e H]. exists e. apply find_entry_Ok, H.
    + intros [e [Hin Hc]]. rewrite find_entry_last.
      destruct (last _) as [e'|] eqn:E; [eauto|].
      rewrite last_None, active_nil in E. rewrite (E e Hin) in Hc. discriminate.
  - apply find_entry_Raise.
  - apply find_entry_Ok.
Qed.

(** Between 08:00-12:00 and 13:00-18:00 nothing is active at 12:30, and
    12:00 itself is outside the first entry. *)
Example find_entry_gap :
  find_entry gap_schedule (on_the_day 12 30 0 0) = Raise (RuntimeError "Entry not found.")
  /\ find_entry gap_schedule (on_the_day 12 0 0 0) = Raise (RuntimeError "Entry not found.")
  /\ find_entry gap_schedule (on_the_day 11 59 59 999999) =
     Ok (mkScheduleEntry "armed" (on_the_day 8 0 0 0) (on_the_day 12 0 0 0))
  /\ find_entry gap_schedule (on_the_day 13 0 0 0) =
     Ok (mkScheduleEntry "disarmed" (on_the_day 13 0 0 0) (on_the_day 18 0 0 0)).
Proof. vm_compute. repeat split. Qed.

(** C10. On the empty schedule [find_entry] raises
    [RuntimeError('Entry not found.')] at every instant. *)
Theorem find_entry_empty (now : datetime.t) :
  find_entry [] now = Raise (RuntimeError "Entry not found.").
Proof.
  apply find_entry_Raise. intros e He. inversion He.
Qed.

(** ** The schedule builder: [build_schedule] *)

Lemma bind_Ok {A B : Type} (m : result A) (f : A -> result B) (b : B) :
  m ≫= f = Ok b <-> exists a, m = Ok a /\ f a = Ok b.
Proof.
  destruct m as [a|e]; simpl; split.
  - intros H. exists a. split; [reflexivity|exact H].
  - intros (a' & [= <-] & H). exact H.
  - discriminate.
  - intros (a' & [=] & _).
Qed.

Section build_schedule_facts.

Variable config : RawConfigParser.t.
Variable selected_fmt : string.
Variable now : datetime.t.

Lemma replace_date_start_of_day t :
  replace_date t now = start_of_day now <-> midnight t.
Proof.
  unfold replace_date, start_of_day, midnight. split.
  - intros [= -> ->]. split; reflexivity.
  - intros [-> ->]. reflexivity.
Qed.

(** What one turn of the loop computes. *)
Lemma build_schedule_body_Ok entry e :
  build_schedule_body config selected_fmt now entry = Ok e <->
  exists mode_text start_text start0 end0,
    RawConfigParser.get config (section_name entry) "mode" = Ok mode_text
    /\ RawConfigParser.get config (section_name entry) "start" = Ok start_text
    /\ strptime start_text selected_fmt = Ok start0
    /\ computed_end config selected_fmt now entry = Ok end0
    /\ build_schedule_rollover end0 (start_of_day now) = Ok (end_ e)
    /\ mode e = mode_text /\ start e = replace_date start0 now.
Proof.
  unfold build_schedule_body, computed_end. split.
  - intros H.
    apply bind_Ok in H as (m & Hm & H). apply bind_Ok in H as (st & Hst & H).
    apply bind_Ok in H as (s0 & Hs0 & H). apply bind_Ok in H as (et & Het & H).
    apply bind_Ok in H as (e0 & He0 & H). apply bind_Ok in H as (e1 & He1 & H).
    injection H as <-. exists m, st, s0, (replace_date e0 now).
    rewrite Het; simpl. rewrite He0; simpl. repeat split; assumption.
  - intros (m & st & s0 & e0 & Hm & Hst & Hs0 & He0 & Hr & Hmode & Hstart).
    rewrite Hm; simpl. rewrite Hst; simpl. rewrite Hs0; simpl.
    apply bind_Ok in He0 as (et & Het & He0). apply bind_Ok in He0 as (e0' & He0' & [= <-]).
    rewrite Het; simpl. rewrite He0'; simpl. rewrite Hr; simpl.
    destruct e; simpl in *; subst; reflexivity.
Qed.

(** The loop appends one entry per name, in order, or raises. *)
Lemma build_schedule_loop_Ok entries schedule result :
  build_schedule_loop config selected_fmt now entries schedule = Ok result <->
  exists built, result = (schedule ++ built)%list
    /\ Forall2 (fun entry e => build_schedule_body config selected_fmt now entry = Ok e)
         entries built.
Proof.
  revert schedule. induction entries as [|entry entries IH]; intros schedule; simpl.
  - split.
    + intros [= <-]. exists []. rewrite app_nil_r. split; [reflexivity|constructor].
    + intros (built & -> & H). inversion H. rewrite app_nil_r. reflexivity.
  - rewrite bind_Ok. split.
    + intros (e & He & H). apply IH in H as (built & -> & H).
      exists (e :: built). rewrite <- app_assoc. split; [reflexivity|].
      constructor; assumption.
    + intros (built & -> & H). inversion H as [|? e ? built' He H']; subst.
      exists e. split; [exact He|]. apply IH. exists built'.
      rewrite <- app_assoc. split; [reflexivity|exact H'].
Qed.

(** The end of day rule on a computed end. *)
Lemma build_schedule_rollover_Ok end0 end1 :
  build_schedule_rollover end0 (start_of_day now) = Ok end1 <->
  (end0 = start_of_day now /\ datetime.add_day end0 = Ok end1)
  \/ (end0 <> start_of_day now /\ end1 = end0).
Proof.
  unfold build_schedule_rollover.
  destruct (datetime.eq end0 (start_of_day now)) eqn:E.
  - apply eq_iff in E. intuition congruence.
  - assert (end0 <> start_of_day now) as Hne.
    { intros H. apply eq_iff in H. congruence. }
    intuition congruence.
Qed.

End build_schedule_facts.

Lemma build_schedule_Ok config now schedule :
  build_schedule config now = Ok schedule <->
  exists entries clock_type,
    RawConfigParser.get config schedule_basename "entries" = Ok entries
    /\ RawConfigParser.getint config schedule_basename "clock" = Ok clock_type
    /\ Forall2 (fun entry e =>
         build_schedule_body config (build_schedule_selected_fmt clock_type) now entry = Ok e)
         (build_schedule_entries (str.strip entries)) schedule.
Proof.
  unfold build_schedule. rewrite bind_Ok. split.
  - intros (entries & He & H). apply bind_Ok in H as (clock_type & Hc & H).
    apply build_schedule_loop_Ok in H as (built & -> & H). eauto 6.
  - intros (entries & clock_type & He & Hc & H). exists entries. split; [exact He|].
    apply bind_Ok. exists clock_type. split; [exact Hc|].
    apply build_schedule_loop_Ok. eauto.
Qed.

Lemma add_day_time d d' :
  datetime.add_day d = Ok d' ->
  datetime.hour d' = datetime.hour d /\ datetime.minute d' = datetime.minute d
  /\ datetime.second d' = datetime.second d
  /\ datetime.microsecond d' = datetime.microsecond d.
Proof.
  unfold datetime.add_day. intros H.
  repeat match type of H with
         | (if ?c then _ else _) = _ => destruct c
         end;
    try discriminate; injection H as <-; simpl; tauto.
Qed.

Lemma computed_end_Ok config selected_fmt now entry end0 :
  computed_end config selected_fmt now entry = Ok end0 ->
  exists t, end0 = replace_date t now.
Proof.
  unfold computed_end. intros H.
  apply bind_Ok in H as (et & _ & H). apply bind_Ok in H as (t & _ & [= <-]).
  exists t. reflexivity.
Qed.

(** Whether an entry that was built has [start < end]. *)
Lemma build_schedule_body_lt config selected_fmt now entry e :
  build_schedule_body config selected_fmt now entry = Ok e ->
  datetime.lt (start e) (end_ e) = true <->
  midnight (end_ e) \/ earlier_in_day (start e) (end_ e).
Proof.
  intros H.
  apply build_schedule_body_Ok in H
    as (m & st & s0 & end0 & _ & _ & _ & Hend0 & Hroll & _ & Hstart).
  apply computed_end_Ok in Hend0 as [t ->].
  apply build_schedule_rollover_Ok in Hroll as [[Hmid Hadd]|[Hne ->]].
  - assert (midnight (end_ e)) as Hm.
    { apply add_day_time in Hadd as (Hh & Hmin & _). rewrite Hmid in Hh, Hmin.
      split; assumption. }
    split; [tauto|]. intros _.
    eapply lt_add_day; [exact Hadd| | |]; rewrite Hstart; reflexivity.
  - rewrite Hstart. unfold replace_date at 1 2. rewrite lt_same_day.
    unfold earlier_in_day, midnight; simpl.
    rewrite replace_date_start_of_day in Hne. unfold midnight in Hne. tauto.
Qed.

(** C1, as the code has it. An entry built by [build_schedule] has
    [start < end] exactly when the time of day of its end is 00:00 (the end
    is then the start of the next day) or the time of day of its start is
    before that of its end. *)
Theorem build_schedule_start_lt_end (config : RawConfigParser.t) (now : datetime.t)
    (schedule : list ScheduleEntry) :
  build_schedule config now = Ok schedule ->
  Forall (fun e => datetime.lt (start e) (end_ e) = true <->
                   midnight (end_ e) \/ earlier_in_day (start e) (end_ e)) schedule.
Proof.
  intros H. apply build_schedule_Ok in H as (entries & clock_type & _ & _ & H).
  induction H as [|entry e entries' schedule' He _ IH]; constructor.
  - eapply build_schedule_body_lt, He.
  - exact IH.
Qed.

Lemma build_schedule_start_lt_end_witness :
  build_schedule day_config sample_now = Ok day_schedule
  /\ Forall (fun e => datetime.lt (start e) (end_ e) = true <->
                      midnight (end_ e) \/ earlier_in_day (start e) (end_ e)) day_schedule.
Proof.
  split; [vm_compute; reflexivity|].
  apply (build_schedule_start_lt_end day_config sample_now day_schedule).
  vm_compute; reflexivity.
Defined.

(** C1, as the spec has it, fails: an entry from 5 PM to 9 AM is built with
    its start after its end. *)
Lemma build_schedule_overnight_counterexample :
  exists e, build_schedule overnight_config sample_now = Ok [e]
    /\ datetime.lt (start e) (end_ e) = false
    /\ e = mkScheduleEntry "armed" (on_the_day 17 0 0 0) (on_the_day 9 0 0 0).
Proof. eexists. split; [vm_compute; reflexivity|split; reflexivity]. Qed.

(** C6. When [build_schedule] returns, every entry's end comes from the
    end the configuration gives ([computed_end]: the parsed time of day on
    the current day) by one rule: a computed end equal to the start of the
    current day is moved exactly one day later, and any other computed end
    is the entry's end unchanged. *)
Theorem build_schedule_rollover_only (config : RawConfigParser.t) (now : datetime.t)
    (schedule : list ScheduleEntry) :
  datetime.valid now ->
  build_schedule config now = Ok schedule ->
  exists entries clock_type,
    RawConfigParser.get config schedule_basename "entries" = Ok entries
    /\ RawConfigParser.getint config schedule_basename "clock" = Ok clock_type
    /\ Forall2 (fun entry e =>
         exists end0,
           computed_end config (build_schedule_selected_fmt clock_type) now entry = Ok end0
           /\ (end0 = start_of_day now -> one_day_later end0 (end_ e))
           /\ (end0 <> start_of_day now -> end_ e = end0))
         (build_schedule_entries (str.strip entries)) schedule.
Proof.
  intros Hnow H. apply build_schedule_Ok in H as (entries & clock_type & He & Hc & H).
  exists entries, clock_type. split; [exact He|]. split; [exact Hc|].
  eapply Forall2_impl; [exact H|]. clear H. intros entry e H.
  apply build_schedule_body_Ok in H
    as (m & st & s0 & end0 & _ & _ & _ & Hend0 & Hroll & _ & _).
  exists end0. split; [exact Hend0|].
  apply build_schedule_rollover_Ok in Hroll as [[Hmid Hadd]|[Hne ->]].
  - split; [|tauto]. intros _. unfold one_day_later.
    apply toordinal_add_day; [| |exact Hadd]; rewrite Hmid; simpl;
      unfold datetime.valid in Hnow; lia.
  - split; [tauto|reflexivity].
Qed.

Lemma build_schedule_rollover_only_witness :
  datetime.valid sample_now
  /\ build_schedule day_config sample_now = Ok day_schedule
  /\ exists entries clock_type,
       RawConfigParser.get day_config schedule_basename "entries" = Ok entries
       /\ RawConfigParser.getint day_config schedule_basename "clock" = Ok clock_type
       /\ Forall2 (fun entry e =>
            exists end0,
              computed_end day_config (build_schedule_selected_fmt clock_type) sample_now entry
                = Ok end0
              /\ (end0 = start_of_day sample_now -> one_day_later end0 (end_ e))
              /\ (end0 <> start_of_day sample_now -> end_ e = end0))
            (build_schedule_entries (str.strip entries)) day_schedule.
Proof.
  assert (datetime.valid sample_now) as Hnow
    by (repeat split; vm_compute; (reflexivity || discriminate)).
  assert (build_schedule day_config sample_now = Ok day_schedule) as Hb
    by (vm_compute; reflexivity).
  split; [exact Hnow|]. split; [exact Hb|].
  exact (build_schedule_rollover_only day_config sample_now day_schedule Hnow Hb).
Defined.

(** Past the last day of [MAXYEAR] there is no next day: an end at
    midnight makes [build_schedule] raise [OverflowError]. *)
Example build_schedule_rollover_overflow :
  build_schedule day_config (datetime.make 9999 12 31 8 0 0 0) = Raise OverflowError.
Proof. vm_compute. reflexivity. Qed.

(** The turn of the loop returns an entry whenever the three options are
    there and the two times parse, short of the overflow above. *)
Lemma build_schedule_body_total config selected_fmt now entry mode_text start_text start0 end0 :
  RawConfigParser.get config (section_name entry) "mode" = Ok mode_text ->
  RawConfigParser.get config (section_name entry) "start" = Ok start_text ->
  strptime start_text selected_fmt = Ok start0 ->
  computed_end config selected_fmt now entry = Ok end0 ->
  end0 <> start_of_day now \/ datetime.year now < datetime.MAXYEAR ->
  exists e, build_schedule_body config selected_fmt now entry = Ok e.
Proof.
  intros Hm Hst Hs0 Hend0 Hfree.
  assert (exists end1, build_schedule_rollover end0 (start_of_day now) = Ok end1) as [end1 Hroll].
  { unfold build_schedule_rollover. destruct (datetime.eq end0 (start_of_day now)) eqn:E;
      [|eauto]. apply eq_iff in E. destruct Hfree as [Hne|Hy]; [contradiction|].
    subst end0. unfold datetime.add_day, start_of_day; simpl.
    repeat match goal with |- exists _, (if ?c then _ else _) = _ => destruct c eqn:? end;
      eauto. apply Z.ltb_ge in Heqb1. lia. }
  exists (mkScheduleEntry mode_text (replace_date start0 now) end1).
  apply build_schedule_body_Ok. exists mode_text, start_text, start0, end0. simpl. tauto.
Qed.

(** C8. [build_schedule] runs its loop with the 24-hour format when the
    clock value is 24 and with the 12-hour format with meridiem for every
    other clock value; the clock value alone raises nothing. *)
Theorem build_schedule_clock_format (config : RawConfigParser.t) (now : datetime.t)
    (entries : string) (clock_type : Z) :
  RawConfigParser.get config schedule_basename "entries" = Ok entries ->
  RawConfigParser.getint config schedule_basename "clock" = Ok clock_type ->
  (clock_type = 24 ->
     build_schedule config now =
     build_schedule_loop config "%H:%m" now (build_schedule_entries (str.strip entries)) [])
  /\ (clock_type <> 24 ->
        build_schedule config now =
        build_schedule_loop config "%I:%M %p" now (build_schedule_entries (str.strip entries)) [])
  /\ (build_schedule_selected_fmt clock_type = __fmt_24 <-> clock_type = 24).
Proof.
  intros He Hc. unfold build_schedule. rewrite He; simpl. rewrite Hc; simpl.
  unfold build_schedule_selected_fmt.
  split; [|split].
  - intros ->. reflexivity.
  - intros Hne. apply Z.eqb_neq in Hne. rewrite Hne. reflexivity.
  - destruct (clock_type =? 24) eqn:E.
    + apply Z.eqb_eq in E. tauto.
    + apply Z.eqb_neq in E. split; [discriminate|contradiction].
Qed.

(** A clock value of 13 builds the schedule of a 12-hour clock. *)
Lemma build_schedule_clock_format_witness :
  RawConfigParser.getint odd_clock_config schedule_basename "clock" = Ok 13
  /\ build_schedule odd_clock_config sample_now =
     build_schedule_loop odd_clock_config "%I:%M %p" sample_now ["away"; "home"] []
  /\ build_schedule odd_clock_config sample_now = Ok day_schedule.
Proof.
  split; [vm_compute; reflexivity|]. split; [|vm_compute; reflexivity].
  apply (build_schedule_clock_format odd_clock_config sample_now "away, home" 13);
    [vm_compute; reflexivity|vm_compute; reflexivity|discriminate].
Defined.

(** ** Splitting lists of names *)

Section split_facts.

Variable sep : ascii.

Lemma split_nonempty s : str.split sep s <> [].
Proof.
  destruct s as [|c s]; simpl; [discriminate|].
  destruct (Ascii.eqb c sep); [discriminate|].
  destruct (str.split sep s); discriminate.
Qed.

Lemma join_cons_cons x y l :
  str.join (String sep "") (x :: y :: l) = x +:+ String sep (str.join (String sep "") (y :: l)).
Proof. reflexivity. Qed.

Lemma join_String c x l :
  str.join (String sep "") (String c x :: l) = String c (str.join (String sep "") (x :: l)).
Proof. destruct l; reflexivity. Qed.

(** Joining the pieces with the separator gives the text back. *)
Lemma join_split s : str.join (String sep "") (str.split sep s) = s.
Proof.
  induction s as [|c s IH]; [reflexivity|]. simpl.
  destruct (Ascii.eqb_spec c sep) as [->|Hne].
  - pose proof (split_nonempty s) as Hn.
    destruct (str.split sep s) as [|y l]; [contradiction|].
    rewrite join_cons_cons, IH. reflexivity.
  - pose proof (split_nonempty s) as Hn.
    destruct (str.split sep s) as [|y l]; [contradiction|].
    rewrite join_String, IH. reflexivity.
Qed.

(** No piece holds the separator. *)
Lemma split_no_sep s : Forall (fun p => str.contains sep p = false) (str.split sep s).
Proof.
  induction s as [|c s IH]; simpl.
  - repeat constructor.
  - destruct (Ascii.eqb c sep) eqn:E.
    + constructor; [reflexivity|exact IH].
    + destruct (str.split sep s) as [|y l]; [repeat constructor; simpl; rewrite E; reflexivity|].
      inversion IH; subst. constructor; [|assumption]. simpl. rewrite E. assumption.
Qed.

(** One piece more than there are separators. *)
Lemma split_length s : length (str.split sep s) = S (count sep s).
Proof.
  induction s as [|c s IH]; simpl; [reflexivity|].
  destruct (Ascii.eqb c sep); simpl; [rewrite IH; reflexivity|].
  destruct (str.split sep s); simpl in *; [discriminate|exact IH].
Qed.

Lemma contains_count s : str.contains sep s = true <-> (1 <= count sep s)%nat.
Proof.
  induction s as [|c s IH]; simpl.
  - split; [discriminate|lia].
  - destruct (Ascii.eqb c sep); simpl; [split; [lia|reflexivity]|exact IH].
Qed.

End split_facts.

Lemma append_String c (a b : string) : String c a +:+ b = String c (a +:+ b).
Proof. reflexivity. Qed.

Lemma append_nil (b : string) : "" +:+ b = b.
Proof. reflexivity. Qed.

Lemma append_assoc (a b c : string) : (a +:+ b) +:+ c = a +:+ b +:+ c.
Proof.
  induction a as [|x a IH]; [reflexivity|]. rewrite !append_String, IH. reflexivity.
Qed.

Lemma lstrip_spec s :
  exists l, s = l +:+ str.lstrip s /\ all_space l = true
    /\ starts_with_space (str.lstrip s) = false.
Proof.
  induction s as [|c s (l & Hs & Hl & Hst)]; cbn [str.lstrip].
  - exists "". repeat split.
  - destruct (str.isspace c) eqn:E.
    + exists (String c l). rewrite append_String, <- Hs. cbn [all_space].
      rewrite E, Hl. repeat split. exact Hst.
    + exists "". cbn [starts_with_space]. rewrite E. repeat split.
Qed.

Lemma rstrip_spec s :
  exists r, s = str.rstrip s +:+ r /\ all_space r = true
    /\ ends_with_space (str.rstrip s) = false.
Proof.
  induction s as [|c s (r & Hs & Hr & Hend)]; cbn [str.rstrip].
  - exists "". repeat split.
  - destruct (str.rstrip s) as [|c' t] eqn:E.
    + rewrite append_nil in Hs. subst r. destruct (str.isspace c) eqn:Ec.
      * exists (String c s). rewrite append_nil. cbn [all_space].
        rewrite Ec, Hr. repeat split.
      * exists s. cbn [ends_with_space]. rewrite Ec. repeat split. exact Hr.
    + exists r. rewrite append_String, <- Hs. repeat split; assumption.
Qed.

Lemma ends_with_space_lstrip s :
  ends_with_space s = false -> ends_with_space (str.lstrip s) = false.
Proof.
  induction s as [|c s IH]; [reflexivity|]. intros H.
  cbn [str.lstrip]. destruct (str.isspace c) eqn:E; [|exact H].
  apply IH. destruct s; [reflexivity|exact H].
Qed.

(** [strip] takes the whitespace off both ends and nothing else. *)
Lemma strip_spec s : trimmed_of s (str.strip s).
Proof.
  unfold trimmed_of, str.strip.
  destruct (rstrip_spec s) as (r & Hs & Hr & Hend).
  destruct (lstrip_spec (str.rstrip s)) as (l & Hs' & Hl & Hstart).
  exists l, r. split; [|auto using ends_with_space_lstrip].
  rewrite <- append_assoc, <- Hs'. exact Hs.
Qed.

(** C7. The list of names (and, by the same statements, the list of
    recipients) of a text without a comma is the text alone, untouched; of
    a text with a comma it is the list of the pieces between the commas,
    in order, each without the whitespace around it. *)
Theorem list_split_asymmetric (s : string) :
  build_schedule_entries s = main_recipients s
  /\ (str.contains "," s = false -> main_recipients s = [s])
  /\ (str.contains "," s = true ->
        exists pieces,
          str.join "," pieces = s
          /\ Forall (fun p => str.contains "," p = false) pieces
          /\ length pieces = S (count "," s) /\ (2 <= length pieces)%nat
          /\ main_recipients s = map str.strip pieces
          /\ Forall2 trimmed_of pieces (main_recipients s)).
Proof.
  split; [reflexivity|]. unfold main_recipients. split.
  - intros ->. reflexivity.
  - intros H. rewrite H. exists (str.split "," s).
    split; [apply join_split|]. split; [apply split_no_sep|].
    split; [apply split_length|]. split.
    + rewrite split_length. apply contains_count in H. lia.
    + split; [reflexivity|]. induction (str.split "," s); constructor.
      * apply strip_spec.
      * assumption.
Qed.

(** The two inputs of the spec, and a list with empty and padded names. *)
Example list_split_examples :
  main_recipients "a" = ["a"] /\ main_recipients "a, b" = ["a"; "b"]
  /\ build_schedule_entries "a" = ["a"] /\ build_schedule_entries "a, b" = ["a"; "b"]
  /\ main_recipients " a " = [" a "] /\ main_recipients " a ,, b c " = ["a"; ""; "b c"].
Proof. vm_compute. repeat split. Qed.

(** ** The mode comparator: [check_station_mode] *)

(** C9. [check_station_mode] sends nothing exactly when the two modes are
    equal after [lower()]; otherwise it opens the SMTP session once and
    sends one message whose content and subject are
    [Arlo in <observed> should be <expected>] with the two modes as they
    were given. *)
Theorem check_station_mode_case_insensitive (found_entry : ScheduleEntry)
    (station_mode originator : string) (notification_recipients : list string) :
  (check_station_mode found_entry station_mode originator notification_recipients = []
   <-> str.lower (mode found_entry) = str.lower station_mode)
  /\ (str.lower (mode found_entry) <> str.lower station_mode ->
      check_station_mode found_entry station_mode originator notification_recipients =
      [Enter;
       Sendmail originator notification_recipients
         ("Arlo in " +:+ station_mode +:+ " should be " +:+ mode found_entry)
         ("Arlo in " +:+ station_mode +:+ " should be " +:+ mode found_entry)
         (str.join ", " notification_recipients);
       Exit]).
Proof.
  unfold check_station_mode.
  destruct (String.eqb_spec (str.lower (mode found_entry)) (str.lower station_mode)) as [Heq|Hne].
  - split; [tauto|]. intros Hne. contradiction.
  - split; [|reflexivity]. split; [discriminate|contradiction].
Qed.

(** Expected [Armed] against observed [armed] matches; expected [armed]
    against observed [Disarmed] is reported with the casing given. *)
Example check_station_mode_examples :
  check_station_mode (mkScheduleEntry "Armed" sample_now sample_now) "armed" "me@x" ["you@x"] = []
  /\ check_station_mode (mkScheduleEntry "armed" sample_now sample_now) "Disarmed" "me@x"
       ["you@x"; "them@x"] =
     [Enter;
      Sendmail "me@x" ["you@x"; "them@x"] "Arlo in Disarmed should be armed"
        "Arlo in Disarmed should be armed" "you@x, them@x";
      Exit].
Proof. vm_compute. split; reflexivity. Qed.

(** From the configuration to the message: [away] is armed from 9 AM to
    5 PM, the station reports [disarmed] at 10 AM. *)
Example check_arlo_mode_end_to_end :
  (schedule ← build_schedule away_config (on_the_day 9 59 0 0);
   found_entry ← find_entry schedule (on_the_day 10 0 0 0);
   Ok (check_station_mode found_entry "disarmed" "me@x" (main_recipients "you@x")))
  = Ok [Enter;
        Sendmail "me@x" ["you@x"] "Arlo in disarmed should be armed"
          "Arlo in disarmed should be armed" "you@x";
        Exit].
Proof. vm_compute. reflexivity. Qed.

(** [lower] works character by character, and only on letters: two modes
    match when they differ in the case of letters alone. *)
Lemma lower_char_idempotent c : str.lower_char (str.lower_char c) = str.lower_char c.
Proof. destruct c as [[] [] [] [] [] [] [] []]; reflexivity. Qed.

Lemma lower_idempotent s : str.lower (str.lower s) = str.lower s.
Proof.
  induction s as [|c s IH]; simpl; [reflexivity|].
  rewrite lower_char_idempotent, IH. reflexivity.
Qed.

(** ** [strptime] on the two formats *)

(** The 12-hour format: midnight and noon, either case of the marker, one
    digit, text left over, an hour or a minute out of range. *)
Example strptime_fmt_12_examples :
  strptime "12:00 AM" __fmt_12 = Ok (datetime.make 1900 1 1 0 0 0 0)
  /\ strptime "12:30 pm" __fmt_12 = Ok (datetime.make 1900 1 1 12 30 0 0)
  /\ strptime "1:5  Pm" __fmt_12 = Ok (datetime.make 1900 1 1 13 5 0 0)
  /\ strptime "1:05 PMs" __fmt_12 = Raise ValueError
  /\ strptime "13:05 PM" __fmt_12 = Raise ValueError
  /\ strptime "1:60 PM" __fmt_12 = Raise ValueError
  /\ strptime "17:00" __fmt_12 = Raise ValueError.
Proof. vm_compute. repeat split. Qed.


Section strptime_facts.

Import _strptime.

Lemma try_alts_Some {R : Type} (k : string -> string -> option R) alts s r :
  try_alts k alts s = Some r ->
  exists a txt rest, a ∈ alts /\ match_alt a s = Some (txt, rest) /\ k txt rest = Some r.
Proof.
  induction alts as [|a alts IH]; simpl; [discriminate|]. intros H.
  destruct (match_alt a s) as [[txt rest]|] eqn:E.
  - destruct (k txt rest) as [r'|] eqn:Ek.
    + injection H as <-. exists a, txt, rest. split; [left|]. split; assumption.
    + apply IH in H as (a' & txt' & rest' & Hin & H). exists a', txt', rest'.
      split; [right; exact Hin|exact H].
  - apply IH in H as (a' & txt' & rest' & Hin & H). exists a', txt', rest'.
    split; [right; exact Hin|exact H].
Qed.

(** The groups of a match are the directives of the format, in order. *)
Lemma re_match_groups ts s found rest :
  re_match ts s = Some (found, rest) -> map fst found = directives ts.
Proof.
  revert s found rest. induction ts as [|t ts IH]; intros s found rest; simpl.
  - intros [= <- _]. reflexivity.
  - destruct t as [d| |c].
    + destruct (directive d) as [alts|]; [|discriminate]. intros H.
      apply try_alts_Some in H as (a & txt & rest' & _ & _ & H).
      destruct (re_match ts rest') as [[found' rest'']|] eqn:E; [|discriminate].
      injection H as <- <-. simpl. f_equal. eapply IH, E.
    + destruct s as [|x s]; [discriminate|]. destruct (str.isspace x); [|discriminate].
      apply IH.
    + destruct s as [|x s]; [discriminate|]. destruct (ch c x); [|discriminate].
      apply IH.
Qed.

(** Under [__fmt_24] the text after the colon is read as a month, which
    [build_schedule] then replaces: the minute of every time that parses
    is 0. *)
Lemma strptime_fmt_24_minute data_string d :
  strptime data_string __fmt_24 = Ok d -> datetime.minute d = 0.
Proof.
  unfold strptime.
  change (pattern __fmt_24) with (Some [TDir "H"; TLit ":"; TDir "m"]).
  cbv beta iota.
  destruct (re_match [TDir "H"; TLit ":"; TDir "m"] data_string)
    as [[found rest]|] eqn:E; [|discriminate].
  destruct rest; [|discriminate].
  apply re_match_groups in E. simpl in E.
  destruct found as [|[k1 v1] [|[k2 v2] [|? ?]]]; try discriminate.
  injection E as -> ->. simpl. intros [= <-]. reflexivity.
Qed.

End strptime_facts.

(** C2, on the code. The format [__fmt_24] is [%H:%m], and [%m] is the
    month, not the minute ([__fmt_12] has [%M]). With clock 24 the time
    [09:30] does not parse, since 30 is no month, and [build_schedule]
    raises [ValueError]; the time [09:05] parses to hour 9, month 5 and
    minute 0, and the entry starts at 09:00, not at 09:05. The 12-hour
    format reads the same minutes. *)
Theorem build_schedule_clock_24_minutes :
  strptime "09:30" __fmt_24 = Raise ValueError
  /\ strptime "09:05" __fmt_24 = Ok (datetime.make 1900 5 1 9 0 0 0)
  /\ build_schedule (clock_24_config "09:30" "17:45") sample_now = Raise ValueError
  /\ build_schedule (clock_24_config "09:05" "17:10") sample_now =
     Ok [mkScheduleEntry "armed" (on_the_day 9 0 0 0) (on_the_day 17 0 0 0)]
  /\ strptime "09:30 AM" __fmt_12 = Ok (datetime.make 1900 1 1 9 30 0 0).
Proof. repeat split; vm_compute; reflexivity. Qed.

(** What holds of every entry, on either clock: its start is on the day of
    [now], to the minute. *)
Lemma build_schedule_start_on_the_day config now schedule :
  build_schedule config now = Ok schedule ->
  Forall (fun e =>
            datetime.year (start e) = datetime.year now
            /\ datetime.month (start e) = datetime.month now
            /\ datetime.day (start e) = datetime.day now
            /\ datetime.second (start e) = 0 /\ datetime.microsecond (start e) = 0) schedule.
Proof.
  intros H. apply build_schedule_Ok in H as (entries & clock_type & _ & _ & H).
  induction H as [|entry e entries' schedule' He _ IH]; constructor; [|exact IH].
  apply build_schedule_body_Ok in He as (m & st & s0 & end0 & _ & _ & _ & _ & _ & _ & ->).
  repeat split.
Qed.

(** With clock 24 the minute of every start is 0, whatever the text. *)
Lemma build_schedule_clock_24_start_minute config now schedule :
  RawConfigParser.getint config schedule_basename "clock" = Ok 24 ->
  build_schedule config now = Ok schedule ->
  Forall (fun e => datetime.minute (start e) = 0) schedule.
Proof.
  intros Hc H. apply build_schedule_Ok in H as (entries & clock_type & _ & Hc' & H).
  rewrite Hc in Hc'. injection Hc' as <-.
  induction H as [|entry e entries' schedule' He _ IH]; constructor; [|exact IH].
  apply build_schedule_body_Ok in He as (m & st & s0 & end0 & _ & _ & Hs0 & _ & _ & _ & ->).
  apply strptime_fmt_24_minute in Hs0. exact Hs0.
Qed.

(** ** More on the resolver *)

Section order_facts.

Import datetime.

Lemma lex_le_lt_trans x y z kab kbc kac :
  (kab <> Gt -> kbc = Lt -> kac = Lt) ->
  lex (x ?= y) kab <> Gt -> lex (y ?= z) kbc = Lt -> lex (x ?= z) kac = Lt.
Proof.
  intros Hk.
  destruct (Z.compare_spec x y), (Z.compare_spec y z), (Z.compare_spec x z);
    simpl; intros; subst; try lia; try congruence; auto.
Qed.

(** [a <= b] and [b < c] give [a < c]. *)
Lemma le_lt_trans a b c : le a b = true -> lt b c = true -> lt a c = true.
Proof.
  unfold le, lt. intros Hab Hbc.
  assert (_cmp a b <> Gt) as Hab' by (destruct (_cmp a b); congruence).
  assert (_cmp b c = Lt) as Hbc' by (destruct (_cmp b c); congruence).
  clear Hab Hbc. enough (_cmp a c = Lt) as -> by reflexivity.
  revert Hab' Hbc'. unfold _cmp.
  repeat (apply lex_le_lt_trans).
  destruct (Z.compare_spec (microsecond a) (microsecond b)),
    (Z.compare_spec (microsecond b) (microsecond c)),
    (Z.compare_spec (microsecond a) (microsecond c));
    intros; subst; try lia; try congruence.
Qed.

End order_facts.

(** An interval with its start at or after its end holds no instant. *)
Lemma contains_start_before_end e now :
  contains e now = true -> datetime.lt (start e) (end_ e) = true.
Proof.
  unfold contains. intros H. apply andb_true_iff in H as [Hle Hlt].
  eapply le_lt_trans; eassumption.
Qed.

(** X1. The schedule resolves by parts: the result on [l1 ++ l2] is the
    result on [l2] when [l2] has an active entry, and the result on [l1]
    otherwise. *)
Theorem find_entry_app (l1 l2 : list ScheduleEntry) (now : datetime.t) :
  find_entry (l1 ++ l2) now =
  match find_entry l2 now with
  | Ok e => Ok e
  | Raise _ => find_entry l1 now
  end.
Proof.
  rewrite !find_entry_last. unfold active_entries.
  rewrite List.filter_app, last_app.
  destruct (last (List.filter _ l2)); reflexivity.
Qed.

(** X2. When at most one entry of the schedule contains [now], the order
    of declaration does not matter: every reordering of the schedule
    resolves to the same result. *)
Theorem find_entry_permutation (l l' : list ScheduleEntry) (now : datetime.t) :
  l ≡ₚ l' ->
  (forall e1 e2, e1 ∈ l -> e2 ∈ l ->
     contains e1 now = true -> contains e2 now = true -> e1 = e2) ->
  find_entry l now = find_entry l' now.
Proof.
  intros Hp Huniq.
  destruct (find_entry l now) as [e|ex] eqn:E, (find_entry l' now) as [e'|ex'] eqn:E'.
  - apply find_entry_Ok in E as [Hin Hc], E' as [Hin' Hc'].
    rewrite <- Hp in Hin'. f_equal. apply Huniq; assumption.
  - apply find_entry_Ok in E as [Hin Hc]. rewrite Hp in Hin.
    rewrite find_entry_last in E'. destruct (last _) eqn:El; [discriminate|].
    rewrite last_None, active_nil in El. rewrite (El e Hin) in Hc. discriminate.
  - apply find_entry_Ok in E' as [Hin Hc]. rewrite <- Hp in Hin.
    rewrite find_entry_last in E. destruct (last _) eqn:El; [discriminate|].
    rewrite last_None, active_nil in El. rewrite (El e' Hin) in Hc. discriminate.
  - rewrite find_entry_last in E, E'.
    destruct (last (active_entries l now)); [discriminate|].
    destruct (last (active_entries l' now)); congruence.
Qed.

Lemma find_entry_permutation_witness :
  find_entry [entry_B; entry_A] (on_the_day 10 0 0 0) =
  find_entry [entry_A; entry_B] (on_the_day 10 0 0 0)
  /\ find_entry [entry_A; entry_B] (on_the_day 10 0 0 0) = Ok entry_A.
Proof.
  split; [|reflexivity].
  apply (find_entry_permutation [entry_B; entry_A] [entry_A; entry_B] (on_the_day 10 0 0 0)).
  - apply Permutation_swap.
  - intros e1 e2 H1 H2.
    apply list_elem_of_In in H1, H2. simpl in H1, H2.
    destruct H1 as [<-|[<-|[]]], H2 as [<-|[<-|[]]];
      vm_compute; intros; congruence.
Defined.

(** X3. An entry that [find_entry] returns has its start strictly before
    its end: an entry whose start is at or after its end is never the
    result, at any instant. *)
Theorem find_entry_start_before_end (schedule : list ScheduleEntry) (now : datetime.t)
    (e : ScheduleEntry) :
  find_entry schedule now = Ok e -> datetime.lt (start e) (end_ e) = true.
Proof.
  intros H. apply find_entry_Ok in H as [_ Hc].
  eapply contains_start_before_end, Hc.
Qed.

Lemma find_entry_start_before_end_witness :
  find_entry [entry_A; entry_B] (on_the_day 12 30 0 0) = Ok entry_B
  /\ datetime.lt (start entry_B) (end_ entry_B) = true.
Proof.
  assert (find_entry [entry_A; entry_B] (on_the_day 12 30 0 0) = Ok entry_B) as H
    by reflexivity.
  split; [exact H|].
  exact (find_entry_start_before_end [entry_A; entry_B] (on_the_day 12 30 0 0) entry_B H).
Defined.

(** ** What [strptime] accepts *)

Section strptime_bounds.

Import _strptime.

Lemma match_alt_1 p s txt rest :
  match_alt [p] s = Some (txt, rest) -> exists x, txt = String x "" /\ p x = true.
Proof.
  destruct s as [|x s]; simpl; [discriminate|].
  destruct (p x) eqn:E; [|discriminate]. intros [= <- _]. eauto.
Qed.

Lemma match_alt_2 p q s txt rest :
  match_alt [p; q] s = Some (txt, rest) ->
  exists x y, txt = String x (String y "") /\ p x = true /\ q y = true.
Proof.
  destruct s as [|x [|y s]]; simpl; try discriminate.
  - destruct (p x); discriminate.
  - destruct (p x) eqn:Ep; [|discriminate]. destruct (q y) eqn:Eq; [|discriminate].
    intros [= <- _]. eauto.
Qed.

Lemma re_match_matched ts s found rest :
  re_match ts s = Some (found, rest) ->
  Forall (fun kv => group_matched kv.1 kv.2) found.
Proof.
  revert s found rest. induction ts as [|t ts IH]; intros s found rest; simpl.
  - intros [= <- _]. constructor.
  - destruct t as [d| |c].
    + destruct (directive d) as [alts|] eqn:Ed; [|discriminate]. intros H.
      apply try_alts_Some in H as (a & txt & rest' & Hin & Ha & H).
      destruct (re_match ts rest') as [[found' rest'']|] eqn:E; [|discriminate].
      injection H as <- <-. constructor.
      * exists alts, a, s, rest'. auto.
      * eapply IH, E.
    + destruct s as [|x s]; [discriminate|]. destruct (str.isspace x); [|discriminate].
      apply IH.
    + destruct s as [|x s]; [discriminate|]. destruct (ch c x); [|discriminate].
      apply IH.
Qed.

Lemma rng_bounds lo hi x : rng lo hi x = true -> str.code lo <= str.code x <= str.code hi.
Proof.
  unfold rng, str.between. intros H. apply andb_true_iff in H as [H1 H2].
  apply Z.leb_le in H1, H2. lia.
Qed.

Lemma isdigit_bounds x : str.isdigit x = true -> 48 <= str.code x <= 57.
Proof.
  unfold str.isdigit, str.between. intros H. apply andb_true_iff in H as [H1 H2].
  apply Z.leb_le in H1, H2. lia.
Qed.

Lemma ch_0 x : ch "0" x = true -> str.code x = 48.
Proof. destruct x as [[] [] [] [] [] [] [] []]; vm_compute; congruence. Qed.

Lemma ch_1 x : ch "1" x = true -> str.code x = 49.
Proof. destruct x as [[] [] [] [] [] [] [] []]; vm_compute; congruence. Qed.

Lemma ch_2 x : ch "2" x = true -> str.code x = 50.
Proof. destruct x as [[] [] [] [] [] [] [] []]; vm_compute; congruence. Qed.

Lemma decimal_1 x : str.decimal 0 (String x "") = str.code x - 48.
Proof. simpl. lia. Qed.

Lemma decimal_2 x y :
  str.decimal 0 (String x (String y "")) = 10 * (str.code x - 48) + (str.code y - 48).
Proof. simpl. lia. Qed.

End strptime_bounds.

Section group_bounds.

Import _strptime.

Ltac norm_codes :=
  change (str.code "0") with 48 in *; change (str.code "1") with 49 in *;
  change (str.code "2") with 50 in *; change (str.code "3") with 51 in *;
  change (str.code "5") with 53 in *; change (str.code "9") with 57 in *.

Ltac char_facts :=
  repeat match goal with
         | H : rng _ _ _ = true |- _ => apply rng_bounds in H
         | H : str.isdigit _ = true |- _ => apply isdigit_bounds in H
         | H : ch "0" _ = true |- _ => apply ch_0 in H
         | H : ch "1" _ = true |- _ => apply ch_1 in H
         | H : ch "2" _ = true |- _ => apply ch_2 in H
         end;
  norm_codes.

Ltac group_cases H :=
  destruct H as (alts & a & s & rest & Hd & Hin & Hm);
  injection Hd as <-;
  repeat (apply elem_of_cons in Hin as [->|Hin]);
  [..|inversion Hin];
  first [apply match_alt_2 in Hm as (x & y & -> & Hx & Hy); rewrite decimal_2
        |apply match_alt_1 in Hm as (x & -> & Hx); rewrite decimal_1];
  char_facts; lia.

Lemma group_I txt : group_matched "I" txt -> 1 <= str.decimal 0 txt <= 12.
Proof. intros H. group_cases H. Qed.

Lemma group_H txt : group_matched "H" txt -> 0 <= str.decimal 0 txt <= 23.
Proof. intros H. group_cases H. Qed.

Lemma group_M txt : group_matched "M" txt -> 0 <= str.decimal 0 txt <= 59.
Proof. intros H. group_cases H. Qed.

Lemma group_m txt : group_matched "m" txt -> 1 <= str.decimal 0 txt <= 12.
Proof. intros H. group_cases H. Qed.

Lemma hour_12_bounds h ampm : 1 <= h <= 12 -> 0 <= hour_12 h ampm <= 23.
Proof.
  intros Hh. unfold hour_12.
  destruct (_ || _); [destruct (Z.eqb_spec h 12); lia|].
  destruct (String.eqb ampm "pm"); [destruct (Z.eqb_spec h 12); lia|lia].
Qed.

(** A time that parses under the 12-hour format is the 1st of January
    1900 at a time of day within bounds. *)
Lemma strptime_fmt_12_valid data_string d :
  strptime data_string __fmt_12 = Ok d ->
  valid_time d /\ datetime.second d = 0 /\ datetime.microsecond d = 0
  /\ datetime.year d = 1900 /\ datetime.month d = 1 /\ datetime.day d = 1.
Proof.
  unfold strptime.
  change (pattern __fmt_12) with (Some [TDir "I"; TLit ":"; TDir "M"; TSpace; TDir "p"]).
  cbv beta iota.
  destruct (re_match [TDir "I"; TLit ":"; TDir "M"; TSpace; TDir "p"] data_string)
    as [[found rest]|] eqn:E; [|discriminate].
  destruct rest; [|discriminate].
  pose proof (re_match_matched _ _ _ _ E) as Hm. apply re_match_groups in E. simpl in E.
  destruct found as [|[k1 v1] [|[k2 v2] [|[k3 v3] [|? ?]]]]; try discriminate.
  injection E as -> -> ->.
  inversion Hm as [|? ? H1 Hm']; subst. inversion Hm' as [|? ? H2 _]; subst.
  simpl in H1, H2. apply group_I in H1. apply group_M in H2.
  simpl. intros [= <-]. unfold valid_time; simpl.
  pose proof (hour_12_bounds (str.decimal 0 v1) (str.lower v3) H1). tauto.
Qed.

(** The same under the 24-hour format, with the minute always 0 and the
    month whatever followed the colon. *)
Lemma strptime_fmt_24_valid data_string d :
  strptime data_string __fmt_24 = Ok d ->
  valid_time d /\ datetime.second d = 0 /\ datetime.microsecond d = 0
  /\ datetime.year d = 1900 /\ 1 <= datetime.month d <= 12 /\ datetime.day d = 1.
Proof.
  unfold strptime.
  change (pattern __fmt_24) with (Some [TDir "H"; TLit ":"; TDir "m"]).
  cbv beta iota.
  destruct (re_match [TDir "H"; TLit ":"; TDir "m"] data_string)
    as [[found rest]|] eqn:E; [|discriminate].
  destruct rest; [|discriminate].
  pose proof (re_match_matched _ _ _ _ E) as Hm. apply re_match_groups in E. simpl in E.
  destruct found as [|[k1 v1] [|[k2 v2] [|? ?]]]; try discriminate.
  injection E as -> ->.
  inversion Hm as [|? ? H1 Hm']; subst. inversion Hm' as [|? ? H2 _]; subst.
  simpl in H1, H2. apply group_H in H1. apply group_m in H2.
  simpl. intros [= <-]. unfold valid_time; simpl. lia.
Qed.

Lemma strptime_selected_fmt_valid clock_type data_string d :
  strptime data_string (build_schedule_selected_fmt clock_type) = Ok d -> valid_time d.
Proof.
  unfold build_schedule_selected_fmt. destruct (clock_type =? 24); intros H.
  - apply strptime_fmt_24_valid in H. tauto.
  - apply strptime_fmt_12_valid in H. tauto.
Qed.

End group_bounds.

(** ** More on the builder *)

Lemma build_schedule_elem config now schedule e :
  build_schedule config now = Ok schedule -> e ∈ schedule ->
  exists clock_type entry,
    RawConfigParser.getint config schedule_basename "clock" = Ok clock_type
    /\ build_schedule_body config (build_schedule_selected_fmt clock_type) now entry = Ok e.
Proof.
  intros H He. apply build_schedule_Ok in H as (entries & clock_type & _ & Hc & H).
  exists clock_type. induction H as [|entry e' entries' schedule' Hb _ IH].
  - inversion He.
  - apply elem_of_cons in He as [->|He]; [eauto|]. apply IH, He.
Qed.

Lemma dim_positive y m : 1 <= m <= 12 -> 28 <= datetime._days_in_month y m.
Proof.
  intros Hm. unfold datetime._days_in_month.
  assert (m = 1 \/ m = 2 \/ m = 3 \/ m = 4 \/ m = 5 \/ m = 6 \/ m = 7 \/ m = 8
          \/ m = 9 \/ m = 10 \/ m = 11 \/ m = 12) as Hc by lia.
  destruct (datetime._is_leap y);
    repeat (destruct Hc as [-> | Hc]; [simpl; lia|]); subst; simpl; lia.
Qed.

(** The next day of a valid instant is a valid instant. *)
Lemma add_day_valid d d' :
  datetime.valid d -> datetime.add_day d = Ok d' -> datetime.valid d'.
Proof.
  unfold datetime.valid, datetime.add_day.
  intros (Hy & Hm & Hd & Hrest) H.
  destruct (datetime.day d <? _) eqn:E1; [|destruct (datetime.month d <? 12) eqn:E2;
    [|destruct (datetime.year d <? datetime.MAXYEAR) eqn:E3; [|discriminate]]];
    injection H as <-; simpl;
    rewrite ?Z.ltb_lt, ?Z.ltb_ge in *; unfold datetime.MAXYEAR in *.
  - repeat split; try tauto; lia.
  - pose proof (dim_positive (datetime.year d) (datetime.month d + 1)).
    repeat split; try tauto; lia.
  - pose proof (dim_positive (datetime.year d + 1) 1).
    repeat split; try tauto; lia.
Qed.

Lemma replace_date_valid t now :
  datetime.valid now -> valid_time t -> datetime.valid (replace_date t now).
Proof.
  unfold datetime.valid, valid_time, replace_date; simpl. intros. repeat split; lia.
Qed.

Lemma computed_end_valid config clock_type now entry end0 :
  computed_end config (build_schedule_selected_fmt clock_type) now entry = Ok end0 ->
  exists t, end0 = replace_date t now /\ valid_time t.
Proof.
  unfold computed_end. intros H.
  apply bind_Ok in H as (et & _ & H). apply bind_Ok in H as (t & Ht & [= <-]).
  exists t. split; [reflexivity|]. eapply strptime_selected_fmt_valid, Ht.
Qed.

(** X4. Every entry of a schedule built at a valid instant has a valid
    start and a valid end: the fields [build_schedule] gives to [replace]
    are within what the [datetime] constructor accepts, on either clock,
    and so is the end moved to the next day. *)
Theorem build_schedule_valid (config : RawConfigParser.t) (now : datetime.t)
    (schedule : list ScheduleEntry) :
  datetime.valid now ->
  build_schedule config now = Ok schedule ->
  Forall (fun e => datetime.valid (start e) /\ datetime.valid (end_ e)) schedule.
Proof.
  intros Hnow H. apply Forall_forall. intros e He.
  destruct (build_schedule_elem _ _ _ _ H He) as (clock_type & entry & _ & Hb).
  apply build_schedule_body_Ok in Hb
    as (m & st & s0 & end0 & _ & _ & Hs0 & Hend0 & Hroll & _ & Hstart).
  apply strptime_selected_fmt_valid in Hs0.
  apply computed_end_valid in Hend0 as (t & -> & Ht).
  split.
  - rewrite Hstart. apply replace_date_valid; assumption.
  - apply build_schedule_rollover_Ok in Hroll as [[_ Hadd]|[_ ->]].
    + eapply add_day_valid; [|exact Hadd]. apply replace_date_valid; assumption.
    + apply replace_date_valid; assumption.
Qed.

Lemma build_schedule_valid_witness :
  datetime.valid sample_now
  /\ build_schedule day_config sample_now = Ok day_schedule
  /\ Forall (fun e => datetime.valid (start e) /\ datetime.valid (end_ e)) day_schedule.
Proof.
  assert (datetime.valid sample_now) as Hnow
    by (repeat split; vm_compute; (reflexivity || discriminate)).
  assert (build_schedule day_config sample_now = Ok day_schedule) as Hb
    by (vm_compute; reflexivity).
  split; [exact Hnow|]. split; [exact Hb|].
  exact (build_schedule_valid day_config sample_now day_schedule Hnow Hb).
Defined.

(** X5. An entry whose end was moved to the next day covers the rest of
    the current day: it contains every instant of the day of [now] that is
    not before its start. *)
Theorem build_schedule_midnight_covers (config : RawConfigParser.t) (now : datetime.t)
    (schedule : list ScheduleEntry) (e : ScheduleEntry) (t : datetime.t) :
  build_schedule config now = Ok schedule -> e ∈ schedule ->
  midnight (end_ e) -> same_day t now -> datetime.le (start e) t = true ->
  contains e t = true.
Proof.
  intros H He Hmid (Hy & Hm & Hd) Hle.
  destruct (build_schedule_elem _ _ _ _ H He) as (clock_type & entry & _ & Hb).
  apply build_schedule_body_Ok in Hb
    as (m & st & s0 & end0 & _ & _ & _ & Hend0 & Hroll & _ & _).
  apply computed_end_Ok in Hend0 as [t0 ->].
  unfold contains. rewrite Hle. simpl.
  apply build_schedule_rollover_Ok in Hroll as [[_ Hadd]|[Hne Heq]].
  - eapply lt_add_day; [exact Hadd| | |]; simpl; assumption.
  - rewrite Heq in Hmid. rewrite replace_date_start_of_day in Hne.
    unfold midnight in *. simpl in Hmid. contradiction.
Qed.

Lemma build_schedule_midnight_covers_witness :
  build_schedule day_config sample_now = Ok day_schedule
  /\ contains (mkScheduleEntry "disarmed" (on_the_day 17 0 0 0) (datetime.make 2024 3 1 0 0 0 0))
       (on_the_day 23 59 59 999999) = true.
Proof.
  split; [vm_compute; reflexivity|].
  apply (build_schedule_midnight_covers day_config sample_now day_schedule
           (mkScheduleEntry "disarmed" (on_the_day 17 0 0 0) (datetime.make 2024 3 1 0 0 0 0))
           (on_the_day 23 59 59 999999)).
  - vm_compute; reflexivity.
  - right; left.
  - split; reflexivity.
  - repeat split.
  - reflexivity.
Defined.

(** X6. An entry whose end is not at 00:00 and whose start is not earlier
    in the day than its end is dead: it contains no instant at all, so an
    interval written across midnight never becomes active. *)
Theorem build_schedule_overnight_dead (config : RawConfigParser.t) (now : datetime.t)
    (schedule : list ScheduleEntry) (e : ScheduleEntry) (t : datetime.t) :
  build_schedule config now = Ok schedule -> e ∈ schedule ->
  ~ midnight (end_ e) -> ~ earlier_in_day (start e) (end_ e) ->
  contains e t = false.
Proof.
  intros H He Hmid Hearly.
  destruct (build_schedule_elem _ _ _ _ H He) as (clock_type & entry & _ & Hb).
  apply build_schedule_body_lt in Hb.
  destruct (contains e t) eqn:E; [|reflexivity].
  apply contains_start_before_end, Hb in E. tauto.
Qed.

Lemma build_schedule_overnight_dead_witness :
  build_schedule overnight_config sample_now =
    Ok [mkScheduleEntry "armed" (on_the_day 17 0 0 0) (on_the_day 9 0 0 0)]
  /\ contains (mkScheduleEntry "armed" (on_the_day 17 0 0 0) (on_the_day 9 0 0 0))
       (on_the_day 20 0 0 0) = false.
Proof.
  split; [vm_compute; reflexivity|].
  apply (build_schedule_overnight_dead overnight_config sample_now
           [mkScheduleEntry "armed" (on_the_day 17 0 0 0) (on_the_day 9 0 0 0)]).
  - vm_compute; reflexivity.
  - left.
  - unfold midnight; simpl. lia.
  - unfold earlier_in_day; simpl. lia.
Defined.

Lemma build_schedule_loop_Raise config selected_fmt now done entry rest schedule ex :
  Forall (fun n => exists e, build_schedule_body config selected_fmt now n = Ok e) done ->
  build_schedule_body config selected_fmt now entry = Raise ex ->
  build_schedule_loop config selected_fmt now (done ++ entry :: rest) schedule = Raise ex.
Proof.
  intros Hdone Hentry. revert schedule.
  induction Hdone as [|n done [e He] _ IH]; intros schedule; simpl.
  - rewrite Hentry. reflexivity.
  - rewrite He. simpl. apply IH.
Qed.

(** X7. There is no partial schedule: when the turn of the loop for one
    name raises and the turns for the names before it do not,
    [build_schedule] raises that exception, whatever the names after it
    are. *)
Theorem build_schedule_first_failure (config : RawConfigParser.t) (now : datetime.t)
    (entries : string) (clock_type : Z) (done rest : list string) (entry : string)
    (ex : exn) :
  RawConfigParser.get config schedule_basename "entries" = Ok entries ->
  RawConfigParser.getint config schedule_basename "clock" = Ok clock_type ->
  build_schedule_entries (str.strip entries) = (done ++ entry :: rest)%list ->
  Forall (fun n => exists e,
            build_schedule_body config (build_schedule_selected_fmt clock_type) now n = Ok e)
    done ->
  build_schedule_body config (build_schedule_selected_fmt clock_type) now entry = Raise ex ->
  build_schedule config now = Raise ex.
Proof.
  intros He Hc Hnames Hdone Hentry. unfold build_schedule.
  rewrite He; simpl. rewrite Hc; simpl. rewrite Hnames.
  apply build_schedule_loop_Raise; assumption.
Qed.

Lemma build_schedule_first_failure_witness :
  build_schedule missing_section_config sample_now = Raise (NoSectionError "schedule_gone").
Proof.
  apply (build_schedule_first_failure missing_section_config sample_now
           "away, gone, home" 12 ["away"] ["home"] "gone").
  - vm_compute; reflexivity.
  - vm_compute; reflexivity.
  - vm_compute; reflexivity.
  - constructor; [|constructor]. eexists. vm_compute. reflexivity.
  - vm_compute; reflexivity.
Defined.

Lemma count_0 sep s : str.contains sep s = false -> count sep s = O.
Proof.
  intros H. destruct (count sep s) eqn:E; [reflexivity|].
  assert (str.contains sep s = true) as H' by (apply contains_count; lia).
  congruence.
Qed.

Lemma build_schedule_entries_length s :
  length (build_schedule_entries s) = S (count "," s).
Proof.
  unfold build_schedule_entries. destruct (str.contains "," s) eqn:E.
  - rewrite length_map. apply split_length.
  - rewrite (count_0 _ _ E). reflexivity.
Qed.

(** X8. A schedule that is returned has one entry per name of the
    [entries] option, in the order of the names, each with the mode of its
    section as written there; it has one entry more than the option has
    commas, so it is never empty. *)
Theorem build_schedule_one_entry_per_name (config : RawConfigParser.t) (now : datetime.t)
    (schedule : list ScheduleEntry) :
  build_schedule config now = Ok schedule ->
  exists entries,
    RawConfigParser.get config schedule_basename "entries" = Ok entries
    /\ length schedule = S (count "," (str.strip entries))
    /\ Forall2 (fun name e =>
                  RawConfigParser.get config (section_name name) "mode" = Ok (mode e))
         (build_schedule_entries (str.strip entries)) schedule.
Proof.
  intros H. apply build_schedule_Ok in H as (entries & clock_type & He & _ & H).
  exists entries. split; [exact He|]. split.
  - rewrite <- build_schedule_entries_length. symmetry. eapply Forall2_length, H.
  - eapply Forall2_impl; [exact H|]. intros name e Hb.
    apply build_schedule_body_Ok in Hb as (m & st & s0 & end0 & Hm & _ & _ & _ & _ & <- & _).
    exact Hm.
Qed.

Lemma build_schedule_one_entry_per_name_witness :
  build_schedule day_config sample_now = Ok day_schedule
  /\ exists entries,
       RawConfigParser.get day_config schedule_basename "entries" = Ok entries
       /\ length day_schedule = S (count "," (str.strip entries))
       /\ Forall2 (fun name e =>
                     RawConfigParser.get day_config (section_name name) "mode" = Ok (mode e))
            (build_schedule_entries (str.strip entries)) day_schedule.
Proof.
  assert (build_schedule day_config sample_now = Ok day_schedule) as Hb
    by (vm_compute; reflexivity).
  split; [exact Hb|].
  exact (build_schedule_one_entry_per_name day_config sample_now day_schedule Hb).
Defined.

(** ** The 12-hour clock *)

Lemma strptime_fmt_12_reads_nat (kh km : nat) (pm : bool) :
  (kh < 12)%nat -> (km < 60)%nat ->
  strptime (text_12 (1 + Z.of_nat kh) (Z.of_nat km) pm) __fmt_12 =
  Ok (datetime.make 1900 1 1 ((1 + Z.of_nat kh) mod 12 + (if pm then 12 else 0))
        (Z.of_nat km) 0 0).
Proof.
  intros Hkh Hkm.
  destruct pm;
    do 12 (destruct kh as [|kh]; [
      do 60 (destruct km as [|km]; [vm_compute; reflexivity|]); lia |]); lia.
Qed.

(** X9. On the 12-hour clock every time [HH:MM AM] or [HH:MM PM] with the
    hour from 01 to 12 and the minute from 00 to 59 parses, to that minute
    and to the hour of the day it names: 12 AM is hour 0, 12 PM is hour
    12, and the other hours of the afternoon are 12 later. *)
Theorem strptime_fmt_12_reads (h m : Z) (pm : bool) :
  1 <= h <= 12 -> 0 <= m <= 59 ->
  strptime (text_12 h m pm) __fmt_12 =
  Ok (datetime.make 1900 1 1 (h mod 12 + (if pm then 12 else 0)) m 0 0).
Proof.
  intros Hh Hm.
  replace h with (1 + Z.of_nat (Z.to_nat (h - 1))) by lia.
  replace m with (Z.of_nat (Z.to_nat m)) by lia.
  apply strptime_fmt_12_reads_nat; lia.
Qed.

Lemma strptime_fmt_12_reads_witness :
  strptime "12:05 AM" __fmt_12 = Ok (datetime.make 1900 1 1 0 5 0 0).
Proof. exact (strptime_fmt_12_reads 12 5 false ltac:(lia) ltac:(lia)). Defined.

(** ** More on the lists of names *)

Lemma contains_append sep a b :
  str.contains sep (a +:+ b) = str.contains sep a || str.contains sep b.
Proof.
  induction a as [|c a IH]; [reflexivity|].
  rewrite append_String. cbn [str.contains]. rewrite IH, orb_assoc. reflexivity.
Qed.

Lemma trimmed_of_contains sep s t :
  trimmed_of s t -> str.contains sep s = false -> str.contains sep t = false.
Proof.
  intros (l & r & -> & _) H. rewrite !contains_append in H.
  apply orb_false_iff in H as [_ H]. apply orb_false_iff in H as [H _]. exact H.
Qed.

(** X10. The list of entry names and the list of recipients are never
    empty, and no element of either holds a comma. *)
Theorem list_split_elements (s : string) :
  main_recipients s <> [] /\ build_schedule_entries s <> []
  /\ Forall (fun p => str.contains "," p = false) (main_recipients s)
  /\ Forall (fun p => str.contains "," p = false) (build_schedule_entries s).
Proof.
  assert (main_recipients s <> []
          /\ Forall (fun p => str.contains "," p = false) (main_recipients s)) as [H1 H2].
  { unfold main_recipients. destruct (str.contains "," s) eqn:E.
    - split.
      + pose proof (split_nonempty "," s). destruct (str.split "," s); [contradiction|].
        discriminate.
      + apply Forall_map. eapply Forall_impl; [apply split_no_sep|].
        intros p Hp. simpl. eapply trimmed_of_contains; [apply strip_spec|exact Hp].
    - split; [discriminate|]. repeat constructor. exact E. }
  repeat split; assumption.
Qed.

Lemma rstrip_id t : ends_with_space t = false -> str.rstrip t = t.
Proof.
  induction t as [|c t IH]; [reflexivity|]. intros H. cbn [str.rstrip].
  destruct t as [|c' t'].
  - cbn [str.rstrip]. cbn [ends_with_space] in H. rewrite H. reflexivity.
  - rewrite IH by exact H. reflexivity.
Qed.

Lemma lstrip_id t : starts_with_space t = false -> str.lstrip t = t.
Proof. destruct t as [|c t]; [reflexivity|]. simpl. intros ->. reflexivity. Qed.

Lemma strip_plain t : plain_name t -> str.strip t = t.
Proof.
  intros (_ & Hs & He). unfold str.strip. rewrite (rstrip_id _ He). apply lstrip_id, Hs.
Qed.

Lemma strip_space_plain t : plain_name t -> str.strip (String " " t) = t.
Proof.
  intros (_ & Hs & He). unfold str.strip. cbn [str.rstrip]. rewrite (rstrip_id _ He).
  destruct t as [|c t]; [reflexivity|]. cbn [str.lstrip].
  change (str.isspace " ") with true. cbv iota. apply (lstrip_id (String c t)), Hs.
Qed.

Lemma split_plain sep a : str.contains sep a = false -> str.split sep a = [a].
Proof.
  induction a as [|c a IH]; [reflexivity|]. cbn [str.contains str.split].
  intros H. apply orb_false_iff in H as [Hc Ha]. rewrite Hc, (IH Ha). reflexivity.
Qed.

Lemma split_append_sep sep a b :
  str.contains sep a = false ->
  str.split sep (a +:+ String sep b) = a :: str.split sep b.
Proof.
  induction a as [|c a IH].
  - intros _. rewrite append_nil. cbn [str.split]. rewrite Ascii.eqb_refl. reflexivity.
  - cbn [str.contains]. intros H. apply orb_false_iff in H as [Hc Ha].
    rewrite append_String. cbn [str.split]. rewrite Hc, (IH Ha). reflexivity.
Qed.

Lemma join_comma_space x y l :
  str.join ", " (x :: y :: l) = x +:+ String "," (String " " (str.join ", " (y :: l))).
Proof. reflexivity. Qed.

Lemma split_join_comma_space x rest :
  Forall plain_name (x :: rest) ->
  str.split "," (str.join ", " (x :: rest)) = x :: map (String " ") rest.
Proof.
  revert x. induction rest as [|y rest IH]; intros x H.
  - inversion H as [|? ? (Hc & _) _]; subst. apply split_plain, Hc.
  - inversion H as [|? ? (Hc & _) H']; subst.
    rewrite join_comma_space, (split_append_sep _ _ _ Hc). f_equal.
    cbn [str.split]. change (Ascii.eqb " " ",") with false. cbv iota.
    rewrite (IH y H'). reflexivity.
Qed.

Lemma map_strip_space l :
  Forall plain_name l -> map str.strip (map (String " ") l) = l.
Proof.
  induction 1 as [|z l Hz _ IH]; [reflexivity|].
  cbn [map]. rewrite (strip_space_plain _ Hz), IH. reflexivity.
Qed.

(** X11. A list of names comes back from its own [To] header: joining
    with [", "] a non-empty list of names that hold no comma and have no
    whitespace around them, and splitting the text as [main] splits the
    recipients, gives the list again. *)
Theorem main_recipients_join (names : list string) :
  names <> [] -> Forall plain_name names ->
  main_recipients (str.join ", " names) = names
  /\ build_schedule_entries (str.join ", " names) = names.
Proof.
  intros Hne H.
  enough (main_recipients (str.join ", " names) = names) as E by (split; exact E).
  destruct names as [|x [|y rest]]; [contradiction| |].
  - inversion H as [|? ? (Hc & _) _]; subst. unfold main_recipients.
    cbn [str.join]. rewrite Hc. reflexivity.
  - unfold main_recipients.
    replace (str.contains "," (str.join ", " (x :: y :: rest))) with true.
    + rewrite (split_join_comma_space _ _ H).
      change (map str.strip (x :: map (String " ") (y :: rest)))
        with (str.strip x :: map str.strip (map (String " ") (y :: rest))).
      inversion H as [|? ? Hx H']; subst.
      rewrite (strip_plain _ Hx), (map_strip_space _ H'). reflexivity.
    + rewrite join_comma_space, contains_append. cbn [str.contains].
      rewrite Ascii.eqb_refl. rewrite orb_true_r. reflexivity.
Qed.

Lemma main_recipients_join_witness :
  str.join ", " ["a@x"; "b c@y"; ""] = "a@x, b c@y, "
  /\ main_recipients "a@x, b c@y, " = ["a@x"; "b c@y"; ""].
Proof.
  split; [reflexivity|].
  apply (main_recipients_join ["a@x"; "b c@y"; ""]).
  - discriminate.
  - repeat constructor.
Defined.

(** ** The SMTP session *)

Lemma kept_nil step : kept step [].
Proof. intros before e after H. destruct before; discriminate. Qed.

Lemma kept_snoc step log e : kept step log -> step log e -> kept step (log ++ [e]).
Proof.
  intros Hlog He before e' after H.
  destruct after as [|x after _] using rev_ind.
  - apply app_inj_tail in H as [-> ->]. exact He.
  - rewrite app_comm_cons, app_assoc in H. apply app_inj_tail in H as [-> _].
    eapply Hlog. reflexivity.
Qed.

Lemma elem_snoc_here {A : Type} (l : list A) (x : A) : x ∈ (l ++ [x])%list.
Proof. apply elem_of_app. right. left. Qed.

Lemma elem_snoc_there {A : Type} (l : list A) (x y : A) : x ∈ l -> x ∈ (l ++ [y])%list.
Proof. intros H. apply elem_of_app. left. exact H. Qed.

Section session_facts.

Variable accepts : list SMTPManager.event -> nat -> SMTPManager.call -> bool.

Lemma bind_eq {A B : Type} (m : M A) (f : A -> M B) self log :
  (m ≫= f) self log =
  match m self log with
  | (Returned a, self', log') => f a self' log'
  | (Raised e, self', log') => (Raised e, self', log')
  end.
Proof. reflexivity. Qed.

(** A call on the connection the manager has stored. *)
Lemma on_self_connection_Some self log c attr k :
  SMTPManager._connection self = Some c ->
  on_self_connection accepts attr k self log =
  (if accepts log c k then Returned tt else Raised SMTPException,
   self, (log ++ [SMTPManager.mkEvent c k (accepts log c k)])%list).
Proof.
  intros H. unfold on_self_connection. rewrite bind_eq. unfold this.
  rewrite H. reflexivity.
Qed.

Lemma on_self_connection_None self log attr k :
  SMTPManager._connection self = None ->
  on_self_connection accepts attr k self log = (Raised (AttributeError attr), self, log).
Proof.
  intros H. unfold on_self_connection. rewrite bind_eq. unfold this.
  rewrite H. reflexivity.
Qed.

Variable settings : SMTPManager.t.
Variable recipients : list string.

(** Proves that an event may follow the log. *)
Ltac may_follow :=
  split;
  [first [exact I | assumption | cbn; eauto]
  |first [exact I
         | match goal with
           | H : same_settings settings _ |- _ =>
               destruct H as (? & ? & ? & ?); cbn; split; congruence
           end]].

(** Names the log that a call has been added to, once it is known to be
    well behaved. *)
Ltac next_log l l' H :=
  match goal with
  | |- context [(l ++ [?e])%list] =>
      assert (well_behaved settings recipients (l ++ [e])) as H
        by (apply kept_snoc; [assumption|may_follow]);
      set (l' := (l ++ [e])%list) in *
  end.

Ltac raised := intros [= <- <- <-]; split; [assumption|split; [assumption|exact I]].

(** [__enter__] keeps the log well behaved and the settings of the
    manager; when it returns, it returns the connection it has stored, on
    which [login] has returned. *)
Lemma __enter___spec self log r self' log' :
  same_settings settings self -> well_behaved settings recipients log ->
  __enter__ accepts self log = (r, self', log') ->
  well_behaved settings recipients log' /\ same_settings settings self'
  /\ match r with
     | Returned smtp =>
         exists c, smtp = Some c /\ SMTPManager._connection self' = Some c
           /\ exists user password,
                SMTPManager.mkEvent c (SMTPManager.login user password) true ∈ log'
     | Raised _ => True
     end.
Proof.
  intros Hset Hlog. unfold __enter__.
  rewrite bind_eq. unfold this at 1. cbv beta iota.
  rewrite bind_eq. unfold new_SMTP at 1. cbv beta iota zeta.
  set (c := length log). next_log log log1 Hlog1.
  destruct (accepts log c _) eqn:E0; [|raised].
  rewrite bind_eq. unfold set_connection at 1. cbv beta iota.
  set (self1 := SMTPManager.make _ _ _ _ (Some c)).
  assert (SMTPManager._connection self1 = Some c) as Hc by reflexivity.
  assert (same_settings settings self1) as Hset1 by exact Hset.
  rewrite bind_eq, (on_self_connection_Some self1 _ _ _ _ Hc).
  next_log log1 log2 Hlog2.
  destruct (accepts log1 c SMTPManager.ehlo) eqn:E1; [|raised].
  rewrite bind_eq, (on_self_connection_Some self1 _ _ _ _ Hc).
  next_log log2 log3 Hlog3.
  destruct (accepts log2 c SMTPManager.starttls) eqn:E2; [|raised].
  assert (SMTPManager.mkEvent c SMTPManager.starttls true ∈ log3) as Htls
    by apply elem_snoc_here.
  rewrite bind_eq, (on_self_connection_Some self1 _ _ _ _ Hc).
  match goal with |- context [(log3 ++ [?e])%list] =>
    pose proof (elem_snoc_there log3 _ e Htls) as Htls4 end.
  next_log log3 log4 Hlog4.
  destruct (accepts log3 c SMTPManager.ehlo) eqn:E3; [|raised].
  rewrite bind_eq. unfold this at 1. cbv beta iota.
  rewrite bind_eq, (on_self_connection_Some self1 _ _ _ _ Hc).
  match goal with |- context [(log4 ++ [?e])%list] =>
    pose proof (elem_snoc_here log4 e) as Hlogin end.
  next_log log4 log5 Hlog5.
  destruct (accepts log4 c (SMTPManager.login _ _)) eqn:E4; [|raised].
  rewrite bind_eq. unfold this at 1. cbv beta iota.
  intros [= <- <- <-]. split; [assumption|]. split; [assumption|].
  exists c. split; [reflexivity|]. split; [reflexivity|]. eauto.
Qed.

(** [__exit__] keeps the log well behaved and the settings; when it
    returns, the manager has no connection left and the last call was a
    [quit] that returned. *)
Lemma __exit___spec self log r self' log' :
  same_settings settings self -> well_behaved settings recipients log ->
  __exit__ accepts self log = (r, self', log') ->
  well_behaved settings recipients log' /\ same_settings settings self'
  /\ match r with
     | Returned _ =>
         SMTPManager._connection self' = None
         /\ exists c, log' = (log ++ [SMTPManager.mkEvent c SMTPManager.quit true])%list
     | Raised _ => True
     end.
Proof.
  intros Hset Hlog. unfold __exit__. rewrite bind_eq.
  destruct (SMTPManager._connection self) as [c|] eqn:Hc.
  - rewrite (on_self_connection_Some self _ _ _ _ Hc).
    next_log log log1 Hlog1.
    destruct (accepts log c SMTPManager.quit) eqn:E; [|raised].
    unfold set_connection. intros [= <- <- <-].
    split; [assumption|]. split; [exact Hset|]. split; [reflexivity|]. eauto.
  - rewrite (on_self_connection_None self _ _ _ Hc). raised.
Qed.

(** [check_station_mode] keeps the log well behaved when the sender is
    the user name of the manager. *)
Lemma check_station_mode_on_spec found_entry station_mode self log r self' log' :
  same_settings settings self -> well_behaved settings recipients log ->
  check_station_mode_on accepts found_entry station_mode
    (SMTPManager._username self) recipients self log = (r, self', log') ->
  well_behaved settings recipients log' /\ same_settings settings self'.
Proof.
  intros Hset Hlog. unfold check_station_mode_on.
  destruct (String.eqb _ _); [intros [= <- <- <-]; tauto|].
  unfold with_manager.
  destruct (__enter__ accepts self log) as [[r1 self1] log1] eqn:Hen.
  apply (__enter___spec _ _ _ _ _ Hset Hlog) in Hen as (Hlog1 & Hset1 & Hr1).
  destruct r1 as [smtp|ex]; [|intros [= <- <- <-]; tauto].
  destruct Hr1 as (c & -> & Hc & user & password & Hlogin).
  unfold call_on, on_connection. cbv beta iota zeta.
  match goal with
  | |- context [(log1 ++ [?e])%list] =>
      assert (well_behaved settings recipients (log1 ++ [e])) as Hlog2;
      [|set (log2 := (log1 ++ [e])%list) in *]
  end.
  { apply kept_snoc; [assumption|]. split; [cbn; eauto|].
    destruct Hset as (? & ? & ? & ?). cbn. split; congruence. }
  match goal with
  | |- context [__exit__ accepts self1 log2] =>
      destruct (__exit__ accepts self1 log2) as [[r3 self3] log3] eqn:Hex
  end.
  apply (__exit___spec _ _ _ _ _ Hset1 Hlog2) in Hex as (Hlog3 & Hset3 & _).
  destruct (accepts log1 c _), r3; intros [= <- <- <-]; tauto.
Qed.

Lemma main_loop_spec schedule base_stations self log r self' log' :
  same_settings settings self -> well_behaved settings recipients log ->
  main_loop accepts schedule recipients base_stations self log = (r, self', log') ->
  well_behaved settings recipients log' /\ same_settings settings self'.
Proof.
  revert self log. induction base_stations as [|[station_mode now] stations IH];
    intros self log Hset Hlog; cbn [main_loop].
  - intros [= <- <- <-]. tauto.
  - rewrite bind_eq. destruct (find_entry schedule now) as [found_entry|ex]; cbn [lift].
    + unfold mret at 1, M_ret at 1. cbv beta iota.
      rewrite bind_eq. unfold this at 1. cbv beta iota. rewrite bind_eq.
      destruct (check_station_mode_on accepts found_entry station_mode _ recipients self log)
        as [[r1 self1] log1] eqn:Hcheck.
      apply (check_station_mode_on_spec _ _ _ _ _ _ _ Hset Hlog) in Hcheck as [Hlog1 Hset1].
      destruct r1 as [[]|ex]; [|intros [= <- <- <-]; tauto].
      apply IH; assumption.
    + unfold raise. intros [= <- <- <-]. tauto.
Qed.

End session_facts.

(** ** [main] *)

Lemma main_setup_Ok config now schedule smtp_manager recipients :
  main_setup config now = Ok (schedule, smtp_manager, recipients) ->
  build_schedule config now = Ok schedule
  /\ RawConfigParser.get config "email" "smtp_username" = Ok (SMTPManager._username smtp_manager)
  /\ RawConfigParser.get config "email" "smtp_password" = Ok (SMTPManager._password smtp_manager)
  /\ RawConfigParser.get config "email" "smtp_server" = Ok (SMTPManager._server smtp_manager)
  /\ RawConfigParser.getint config "email" "smtp_port" = Ok (SMTPManager._port smtp_manager)
  /\ SMTPManager._connection smtp_manager = None
  /\ exists text, RawConfigParser.get config "email" "recipients" = Ok text
       /\ recipients = main_recipients text.
Proof.
  unfold main_setup, make_smtp_manager. intros H.
  apply bind_Ok in H as (u & _ & H). apply bind_Ok in H as (p & _ & H).
  apply bind_Ok in H as (sch & Hsch & H). apply bind_Ok in H as (mgr & Hmgr & H).
  apply bind_Ok in H as (text & Htext & [= <- <- <-]).
  apply bind_Ok in Hmgr as (mu & Hmu & Hmgr). apply bind_Ok in Hmgr as (mp & Hmp & Hmgr).
  apply bind_Ok in Hmgr as (ms & Hms & Hmgr). apply bind_Ok in Hmgr as (mport & Hmport & [= <-]).
  simpl. eauto 10.
Qed.

Lemma main_well_behaved accepts config now base_stations schedule smtp_manager recipients
    r log' :
  main_setup config now = Ok (schedule, smtp_manager, recipients) ->
  main accepts config now base_stations [] = (r, log') ->
  well_behaved smtp_manager recipients log'.
Proof.
  intros Hsetup. unfold main. rewrite Hsetup.
  destruct (main_loop accepts schedule recipients base_stations smtp_manager [])
    as [[r1 self1] log1] eqn:Hloop.
  intros [= <- <-].
  eapply (main_loop_spec accepts smtp_manager recipients); [| |exact Hloop].
  - repeat split.
  - apply kept_nil.
Qed.

(** X12. Whatever the server answers, [main] keeps the order of an SMTP
    session: in the log it leaves, every [login] comes after a [starttls]
    that returned on the same connection, so the password only goes over a
    connection that has switched to TLS, and every [sendmail] comes after
    a [login] that returned on the same connection. *)
Theorem main_session_order
    (accepts : list SMTPManager.event -> nat -> SMTPManager.call -> bool)
    (config : RawConfigParser.t) (now : datetime.t)
    (base_stations : list (string * datetime.t))
    (r : outcome unit) (log' before after : list SMTPManager.event) (e : SMTPManager.event) :
  main accepts config now base_stations [] = (r, log') ->
  log' = (before ++ e :: after)%list ->
  allowed before e.
Proof.
  intros Hmain Hsplit.
  destruct (main_setup config now) as [[[schedule smtp_manager] recipients]|ex] eqn:Hsetup.
  - pose proof (main_well_behaved _ _ _ _ _ _ _ _ _ Hsetup Hmain) as H.
    apply (H before e after Hsplit).
  - unfold main in Hmain. rewrite Hsetup in Hmain. injection Hmain as _ <-.
    destruct before; discriminate.
Qed.

(** X13. Whatever the server answers, [main] talks only as the
    configuration says: every connection is to [smtp_server] and
    [smtp_port], every [login] is with [smtp_username] and
    [smtp_password], and every message is from [smtp_username] to the
    recipients listed in [recipients]. *)
Theorem main_uses_configuration
    (accepts : list SMTPManager.event -> nat -> SMTPManager.call -> bool)
    (config : RawConfigParser.t) (now : datetime.t)
    (base_stations : list (string * datetime.t))
    (r : outcome unit) (log' : list SMTPManager.event) :
  main accepts config now base_stations [] = (r, log') ->
  Forall (configured config) log'.
Proof.
  intros Hmain.
  destruct (main_setup config now) as [[[schedule smtp_manager] recipients]|ex] eqn:Hsetup.
  - pose proof (main_well_behaved _ _ _ _ _ _ _ _ _ Hsetup Hmain) as H.
    apply main_setup_Ok in Hsetup as (_ & Hu & Hp & Hs & Hport & _ & text & Htext & ->).
    apply Forall_forall. intros e He.
    apply list_elem_of_split in He as (before & after & ->).
    destruct (H before e after eq_refl) as [_ Hc].
    unfold conforms in Hc. unfold configured.
    destruct (SMTPManager.what e); try exact I.
    + destruct Hc as [-> ->]. tauto.
    + destruct Hc as [-> ->]. tauto.
    + destruct Hc as [-> ->]. eauto.
  - unfold main in Hmain. rewrite Hsetup in Hmain. injection Hmain as _ <-. constructor.
Qed.

Lemma main_session_order_witness :
  main no_login full_config sample_now sample_stations [] =
    (Raised SMTPException, refused_login_log)
  /\ allowed (take 4 refused_login_log)
       (SMTPManager.mkEvent 0 (SMTPManager.login "me@x" "pw") false).
Proof.
  assert (main no_login full_config sample_now sample_stations [] =
          (Raised SMTPException, refused_login_log)) as H by (vm_compute; reflexivity).
  split; [exact H|].
  exact (main_session_order no_login full_config sample_now sample_stations _ _
           (take 4 refused_login_log) []
           (SMTPManager.mkEvent 0 (SMTPManager.login "me@x" "pw") false) H eq_refl).
Defined.

Lemma main_uses_configuration_witness :
  length (main always full_config sample_now sample_stations []).2 = 14%nat
  /\ Forall (configured full_config) (main always full_config sample_now sample_stations []).2.
Proof.
  split; [vm_compute; reflexivity|].
  apply (main_uses_configuration always full_config sample_now sample_stations
           (main always full_config sample_now sample_stations []).1).
  destruct (main always full_config sample_now sample_stations []); reflexivity.
Defined.

(** X14. When every base station is in the mode of the entry active at its
    turn, compared without case, [main] returns and makes no call at all
    on the server. *)
Theorem main_silent_when_matching
    (accepts : list SMTPManager.event -> nat -> SMTPManager.call -> bool)
    (config : RawConfigParser.t) (now : datetime.t)
    (base_stations : list (string * datetime.t)) (log : list SMTPManager.event)
    (schedule : list ScheduleEntry) (smtp_manager : SMTPManager.t)
    (recipients : list string) :
  main_setup config now = Ok (schedule, smtp_manager, recipients) ->
  Forall (fun station =>
            exists e, find_entry schedule station.2 = Ok e
                      /\ str.lower (mode e) = str.lower station.1) base_stations ->
  main accepts config now base_stations log = (Returned tt, log).
Proof.
  intros Hsetup Hall. unfold main. rewrite Hsetup.
  enough (main_loop accepts schedule recipients base_stations smtp_manager log
          = (Returned tt, smtp_manager, log)) as -> by reflexivity.
  induction Hall as [|[station_mode t] stations (e & He & Hmode) _ IH]; [reflexivity|].
  cbn [main_loop]. simpl in He, Hmode. rewrite bind_eq, He. cbn [lift].
  unfold mret at 1, M_ret at 1. cbv beta iota.
  rewrite bind_eq. unfold this at 1. cbv beta iota. rewrite bind_eq.
  unfold check_station_mode_on. rewrite Hmode, String.eqb_refl.
  unfold mret at 1, M_ret at 1. cbv beta iota. exact IH.
Qed.

Lemma main_silent_when_matching_witness :
  main no_login full_config sample_now
    [("ARMED", on_the_day 10 0 0 0); ("Disarmed", on_the_day 23 0 0 0)] []
  = (Returned tt, []).
Proof.
  apply (main_silent_when_matching no_login full_config sample_now
           [("ARMED", on_the_day 10 0 0 0); ("Disarmed", on_the_day 23 0 0 0)] []
           day_schedule (SMTPManager.__init__ "me@x" "pw" "smtp.x" 587) ["you@x"; "them@x"]).
  - vm_compute; reflexivity.
  - repeat constructor; eexists; split; vm_compute; reflexivity.
Defined.

(** X15. With a server that takes every call, [check_station_mode] does
    on the manager exactly what the list of its calls says: nothing when
    the list is empty, and otherwise one session on a new connection
    (connect, [ehlo], [starttls], [ehlo], [login], the one [sendmail] of
    the list, [quit]), after which the manager has no connection. *)
Theorem check_station_mode_session (found_entry : ScheduleEntry)
    (station_mode originator : string) (notification_recipients : list string)
    (self : SMTPManager.t) (log : list SMTPManager.event) :
  check_station_mode_on always found_entry station_mode originator
    notification_recipients self log =
  match check_station_mode found_entry station_mode originator notification_recipients with
  | [Enter; Sendmail from_addr to_addrs content subject to_header; Exit] =>
      (Returned tt, disconnected self,
       (log ++ map (fun k => SMTPManager.mkEvent (length log) k true)
                 (session_calls self from_addr to_addrs
                    (content, from_addr, to_header, subject)))%list)
  | _ => (Returned tt, self, log)
  end.
Proof.
  unfold check_station_mode_on, check_station_mode.
  destruct (String.eqb _ _); [reflexivity|].
  cbv [with_manager __enter__ __exit__ on_self_connection call_on on_connection
       new_SMTP set_connection this always disconnected session_calls
       mbind M_bind mret M_ret map
       SMTPManager._connection SMTPManager._server SMTPManager._port
       SMTPManager._username SMTPManager._password].
  rewrite <- !app_assoc. reflexivity.
Qed.

(** ** The manager outside [main] *)

Section manager_facts.

Variable accepts : list SMTPManager.event -> nat -> SMTPManager.call -> bool.

Lemma __exit___Returned self log u self' log' :
  __exit__ accepts self log = (Returned u, self', log') ->
  SMTPManager._connection self' = None
  /\ exists c, log' = (log ++ [SMTPManager.mkEvent c SMTPManager.quit true])%list.
Proof.
  unfold __exit__. rewrite bind_eq.
  destruct (SMTPManager._connection self) as [c|] eqn:Hc.
  - rewrite (on_self_connection_Some accepts self _ _ _ _ Hc).
    destruct (accepts log c SMTPManager.quit); [|discriminate].
    unfold set_connection. intros [= <- <-]. eauto.
  - rewrite (on_self_connection_None accepts self _ _ _ Hc). discriminate.
Qed.

Lemma send_None self log msg_from msg_to text :
  SMTPManager._connection self = None ->
  send accepts msg_from msg_to text self log =
  (Raised (Exn (RuntimeError "Not connected to smtp server")), self, log).
Proof. intros H. unfold send. rewrite bind_eq. unfold this. rewrite H. reflexivity. Qed.

(** X16. A [with] block on the manager that ends without exception,
    whatever its body does, ends with a [quit] that returned and leaves
    the manager without connection: a [send] after it raises
    [RuntimeError('Not connected to smtp server')] and makes no call. *)
Theorem with_manager_leaves_no_connection {A : Type} (body : option nat -> M A)
    (self : SMTPManager.t) (log : list SMTPManager.event) (a : A)
    (self' : SMTPManager.t) (log' : list SMTPManager.event)
    (msg_from msg_to : string) (text : string * string * string * string) :
  with_manager accepts body self log = (Returned a, self', log') ->
  SMTPManager._connection self' = None
  /\ (exists c log0, log' = (log0 ++ [SMTPManager.mkEvent c SMTPManager.quit true])%list)
  /\ send accepts msg_from msg_to text self' log' =
     (Raised (Exn (RuntimeError "Not connected to smtp server")), self', log').
Proof.
  unfold with_manager.
  destruct (__enter__ accepts self log) as [[[smtp|e1] self1] log1]; [|discriminate].
  destruct (body smtp self1 log1) as [[r2 self2] log2].
  destruct (__exit__ accepts self2 log2) as [[[u|e3] self3] log3] eqn:Hexit; [|discriminate].
  intros [= -> <- <-]. apply __exit___Returned in Hexit as [Hnone [c ->]].
  split; [exact Hnone|]. split; [eauto|]. apply send_None, Hnone.
Qed.

Lemma grown_refl log : grown_without_quit log log.
Proof. exists []. rewrite app_nil_r. split; [reflexivity|constructor]. Qed.

Lemma grown_snoc log log' e :
  grown_without_quit log log' -> SMTPManager.what e <> SMTPManager.quit ->
  grown_without_quit log (log' ++ [e]).
Proof.
  intros (added & -> & H) He. exists (added ++ [e])%list. split.
  - rewrite <- app_assoc. reflexivity.
  - apply Forall_app. split; [exact H|]. repeat constructor. exact He.
Qed.

(** Names the log that a call other than [quit] has been added to. *)
Ltac next_grown base l l' H :=
  match goal with
  | |- context [(l ++ [?e])%list] =>
      assert (grown_without_quit base (l ++ [e])) as H
        by (apply grown_snoc; [assumption|discriminate]);
      set (l' := (l ++ [e])%list) in *
  end.

Lemma __enter___Raised self log e self1 log1 :
  __enter__ accepts self log = (Raised e, self1, log1) ->
  grown_without_quit log log1
  /\ (accepts log (length log)
        (SMTPManager.SMTP (SMTPManager._server self) (SMTPManager._port self)) = true ->
      SMTPManager._connection self1 = Some (length log)).
Proof.
  unfold __enter__.
  rewrite bind_eq. unfold this at 1. cbv beta iota.
  rewrite bind_eq. unfold new_SMTP at 1. cbv beta iota zeta.
  set (c := length log).
  pose proof (grown_refl log) as Hlog0.
  next_grown log log l1 H1.
  destruct (accepts log c _) eqn:E0; [|intros [= <- <- <-]; split; [exact H1|discriminate]].
  rewrite bind_eq. unfold set_connection at 1. cbv beta iota.
  set (self1' := SMTPManager.make _ _ _ _ (Some c)).
  assert (SMTPManager._connection self1' = Some c) as Hc by reflexivity.
  rewrite bind_eq, (on_self_connection_Some accepts self1' _ _ _ _ Hc).
  next_grown log l1 l2 H2.
  destruct (accepts l1 c SMTPManager.ehlo) eqn:E1;
    [|intros [= <- <- <-]; split; [exact H2|intros _; exact Hc]].
  rewrite bind_eq, (on_self_connection_Some accepts self1' _ _ _ _ Hc).
  next_grown log l2 l3 H3.
  destruct (accepts l2 c SMTPManager.starttls) eqn:E2;
    [|intros [= <- <- <-]; split; [exact H3|intros _; exact Hc]].
  rewrite bind_eq, (on_self_connection_Some accepts self1' _ _ _ _ Hc).
  next_grown log l3 l4 H4.
  destruct (accepts l3 c SMTPManager.ehlo) eqn:E3;
    [|intros [= <- <- <-]; split; [exact H4|intros _; exact Hc]].
  rewrite bind_eq. unfold this at 1. cbv beta iota.
  rewrite bind_eq, (on_self_connection_Some accepts self1' _ _ _ _ Hc).
  next_grown log l4 l5 H5.
  destruct (accepts l4 c (SMTPManager.login _ _)) eqn:E4;
    [|intros [= <- <- <-]; split; [exact H5|intros _; exact Hc]].
  rewrite bind_eq. unfold this at 1. cbv beta iota. discriminate.
Qed.

(** X17. When [__enter__] raises, the [with] block raises the same
    exception and runs neither its body nor [__exit__]: no [quit] is made,
    and when the connection had been made the manager keeps it, so the
    connection stays open and a later [send] would find it. *)
Theorem with_manager_enter_raises {A : Type} (body : option nat -> M A)
    (self : SMTPManager.t) (log : list SMTPManager.event) (e : error)
    (self1 : SMTPManager.t) (log1 : list SMTPManager.event) :
  __enter__ accepts self log = (Raised e, self1, log1) ->
  with_manager accepts body self log = (Raised e, self1, log1)
  /\ grown_without_quit log log1
  /\ (accepts log (length log)
        (SMTPManager.SMTP (SMTPManager._server self) (SMTPManager._port self)) = true ->
      SMTPManager._connection self1 = Some (length log)).
Proof.
  intros H. split.
  - unfold with_manager. rewrite H. reflexivity.
  - apply __enter___Raised in H. exact H.
Qed.

End manager_facts.

Lemma with_manager_leaves_no_connection_witness :
  exists log',
    with_manager always (fun _ => mret tt) sample_manager [] = (Returned tt, sample_manager, log')
    /\ length log' = 6%nat
    /\ send always "me@x" "you@x" ("text", "me@x", "you@x", "subject") sample_manager log' =
       (Raised (Exn (RuntimeError "Not connected to smtp server")), sample_manager, log').
Proof.
  eexists. split; [vm_compute; reflexivity|]. split; [reflexivity|].
  eapply (with_manager_leaves_no_connection always (fun _ => mret tt) sample_manager [] tt).
  vm_compute. reflexivity.
Defined.

Lemma with_manager_enter_raises_witness :
  __enter__ no_login sample_manager [] =
    (Raised SMTPException,
     SMTPManager.make "smtp.x" 587 "me@x" "pw" (Some 0%nat), refused_login_log)
  /\ with_manager no_login (fun _ => mret tt) sample_manager [] =
     (Raised SMTPException,
      SMTPManager.make "smtp.x" 587 "me@x" "pw" (Some 0%nat), refused_login_log).
Proof.
  assert (__enter__ no_login sample_manager [] =
          (Raised SMTPException,
           SMTPManager.make "smtp.x" 587 "me@x" "pw" (Some 0%nat), refused_login_log)) as H
    by (vm_compute; reflexivity).
  split; [exact H|].
  exact (proj1 (with_manager_enter_raises no_login (fun _ => mret tt) sample_manager []
                  _ _ _ H)).
Defined.

(** ** The requirements of [setup.py] *)

Section setup_facts.

Import setup_py.

Lemma requirements_loop_spec reqs install_reqs dependency_links :
  requirements_loop reqs install_reqs dependency_links =
  ((install_reqs ++
      map (fun req => if startswith "https://" req then egg_requirement req else req) reqs)%list,
   (dependency_links ++ List.filter (startswith "https://") reqs)%list).
Proof.
  revert install_reqs dependency_links.
  induction reqs as [|req reqs IH]; intros install_reqs dependency_links;
    cbn [requirements_loop map List.filter].
  - rewrite !app_nil_r. reflexivity.
  - destruct (startswith "https://" req); rewrite IH, <- !app_assoc; reflexivity.
Qed.

(** X18. [setup.py] keeps one requirement per line of
    [requirements.txt], in order: a line that starts with [https://] is
    replaced by what follows its [egg=] marker and is also listed, whole,
    as a dependency link; every other line is kept as it is, stripped. *)
Theorem requirements_per_line (lines : list string) :
  requirements lines =
  (map (fun req => if startswith "https://" req then egg_requirement req else req)
     (map str.strip lines),
   List.filter (startswith "https://") (map str.strip lines)).
Proof. unfold requirements. rewrite requirements_loop_spec. reflexivity. Qed.

Lemma startswith_egg_marker c pre rest :
  startswith "egg=" (String c pre +:+ "egg=" +:+ rest) =
  startswith "egg=" (String c pre +:+ "egg").
Proof. destruct pre as [|a [|b [|d pre]]]; reflexivity. Qed.

Lemma find_egg_marker pre rest :
  occurs "egg=" (pre +:+ "egg") = false ->
  find "egg=" (pre +:+ "egg=" +:+ rest) = Z.of_nat (String.length pre).
Proof.
  unfold occurs. induction pre as [|c pre IH]; intros H.
  - reflexivity.
  - rewrite append_String in H. cbn [find] in H.
    rewrite append_String. cbn [find String.length].
    rewrite <- !append_String, startswith_egg_marker.
    change (String c pre +:+ "egg") with (String c (pre +:+ "egg")).
    destruct (startswith "egg=" (String c (pre +:+ "egg"))); [discriminate H|].
    destruct (find "egg=" (pre +:+ "egg") <? 0) eqn:E;
      [|apply Z.leb_gt in H; apply Z.ltb_ge in E; lia].
    rewrite IH by (apply Z.leb_gt, Z.ltb_lt, E).
    destruct (Z.ltb_spec (Z.of_nat (String.length pre)) 0); lia.
Qed.

Lemma slice_from_append pre rest :
  slice_from (String.length pre) (pre +:+ rest) = rest.
Proof. induction pre as [|c pre IH]; [destruct rest; reflexivity|exact IH]. Qed.

Lemma replace_first_dash name version :
  str.contains "-" name = false ->
  replace_first "-" "==" (name +:+ "-" +:+ version) = name +:+ "==" +:+ version.
Proof.
  induction name as [|c name IH]; intros H.
  - reflexivity.
  - cbn [str.contains] in H. apply orb_false_iff in H as [Hc Hname].
    change (String c name +:+ "-" +:+ version) with (String c (name +:+ "-" +:+ version)).
    change (String c name +:+ "==" +:+ version) with (String c (name +:+ "==" +:+ version)).
    cbn [replace_first]. rewrite Hc, (IH Hname). reflexivity.
Qed.

(** X19. From a link that ends in [egg=NAME-VERSION], where [egg=] does
    not occur before and [NAME] has no hyphen, the requirement is
    [NAME==VERSION]. *)
Theorem egg_requirement_name_version (pre name version : string) :
  occurs "egg=" (pre +:+ "egg") = false ->
  str.contains "-" name = false ->
  egg_requirement (pre +:+ "egg=" +:+ name +:+ "-" +:+ version) =
  name +:+ "==" +:+ version.
Proof.
  intros Hpre Hname. unfold egg_requirement.
  rewrite (find_egg_marker _ _ Hpre).
  replace (Z.to_nat (Z.of_nat (String.length pre) + 4))
    with (String.length (pre +:+ "egg=")).
  - rewrite <- (append_assoc pre "egg="), slice_from_append.
    apply replace_first_dash, Hname.
  - clear. induction pre as [|c pre IH]; [reflexivity|].
    rewrite append_String. cbn [String.length]. rewrite IH. lia.
Qed.

Lemma egg_requirement_name_version_witness :
  egg_requirement "https://github.com/tchellomello/python-arlo/archive/master.zip#egg=pyarlo-0.1.2"
  = "pyarlo==0.1.2".
Proof.
  apply (egg_requirement_name_version
           "https://github.com/tchellomello/python-arlo/archive/master.zip#"
           "pyarlo" "0.1.2"); vm_compute; reflexivity.
Defined.

(** A link without [egg=]: [find] gives -1, and the requirement is the
    link from its fourth character on, with its first hyphen doubled. *)
Example egg_requirement_without_marker :
  requirements ["pyarlo"; " https://host/some-package.zip "; ""] =
  (["pyarlo"; "ps://host/some==package.zip"; ""], ["https://host/some-package.zip"]).
Proof. vm_compute. reflexivity. Qed.

End setup_facts.
